(** * Home Security System: the sensor/alarm state machine of [App.js]

    A shallow embedding of the React component [App]: its state cells
    ([sensors], [armed], [logs], [alarmOn], ...), the handlers that update
    them ([simulateSensorEvent], [pushLog], [performSensorAck], ...), and
    the persistence of [{sensors, armed, logs}] in [localStorage].

    Conventions of the embedding.
    - JavaScript strings are byte strings (UTF-8); numbers used as sensor
      ids are integers ([Z]).
    - [nowISO()] reads the clock: every handler takes the reading [now].
    - A handler is a closure created by one render of the component: the
      variables [armed], [alarmOn], [simulate] and [selectedSensor] it
      mentions are the values of that render.  They are passed as a
      [Render] record; [render st] is the closure of the render that
      shows the state [st], the one a click on a button runs.
    - A function given to a state setter is run on the latest value of
      its cell, in the order of the calls: once in a production build,
      twice in a development build under [React.StrictMode] ([Build]).
      The clock readings of one operation are one reading.
    - The handlers work on a state whose cells hold what the data model
      says (a list of sensors, a flag, a list of log entries).  What the
      initialisers read from [localStorage] is a parsed JSON value of any
      shape: the persistence part keeps it as such.
    - [JSON.parse] and [JSON.stringify] belong to the platform: the
      persistence functions take them as parameters. *)

From Stdlib Require Import String Ascii List ZArith Bool Arith Lia.
From Stdlib Require Import DecimalString DecimalN.
Import ListNotations.
Local Open Scope string_scope.

Set Warnings "-register-all".

(** ** Data *)

Record Event := mkEvent {
  ev_time : string;
  ev_type : string;
  ev_note : string
}.

Record Sensor := mkSensor {
  id : Z;
  name : string;
  type : string;
  state : string;
  lastEvent : option string;   (* [null] or an ISO time *)
  history : list Event
}.

Record LogEntry := mkLog {
  message : string;
  time : string
}.

Definition initialSensors : list Sensor :=
  [ mkSensor 1 "Front Door" "door" "closed" None [];
    mkSensor 2 "Back Window" "window" "closed" None [];
    mkSensor 3 "Living Room Motion" "motion" "idle" None [];
    mkSensor 4 "Garage Camera" "camera" "ok" None [];
    mkSensor 5 "Kitchen Smoke" "smoke" "ok" None [] ].

Definition STORAGE_KEY : string := "home_security_state_v1".

(** The state cells of the component ([useState]). *)
Record AppState := mkState {
  sensors : list Sensor;
  armed : bool;
  logs : list LogEntry;
  showModal : bool;
  selectedSensor : option Sensor;
  simulate : bool;
  alarmOn : bool
}.

(** The variables a handler closes over. *)
Record Render := mkRender {
  r_armed : bool;
  r_alarmOn : bool;
  r_simulate : bool;
  r_selectedSensor : option Sensor
}.

Definition render (st : AppState) : Render :=
  mkRender (armed st) (alarmOn st) (simulate st) (selectedSensor st).

(** ** JavaScript truthiness of the optional string arguments *)

Definition truthy (s : string) : bool := negb (s =? "").

(** [x || y] on an optional string: [undefined], [null] and [""] are falsy. *)
Definition or_else (x : option string) (y : string) : string :=
  match x with
  | Some s => if truthy s then s else y
  | None => y
  end.

(** ** Setters called from inside the [setSensors] updater

    The updater given to [setSensors] calls [setAlarmOn] and [pushLog]
    while it maps over the sensors.  [Upd] threads the two cells they
    write through that traversal. *)

Record Cells := mkCells {
  c_alarmOn : bool;
  c_logs : list LogEntry
}.

Definition Upd (A : Type) : Type := Cells -> A * Cells.

Definition ret {A} (a : A) : Upd A := fun c => (a, c).

Definition bind {A B} (m : Upd A) (k : A -> Upd B) : Upd B :=
  fun c => let (a, c') := m c in k a c'.

Notation "m ;; k" := (bind m (fun _ => k))
  (at level 61, right associativity).

Fixpoint mapM {A B} (f : A -> Upd B) (l : list A) : Upd (list B) :=
  match l with
  | [] => ret []
  | a :: l' => bind (f a) (fun b => bind (mapM f l') (fun bs => ret (b :: bs)))
  end.

Definition setAlarmOn (b : bool) : Upd unit :=
  fun c => (tt, mkCells b (c_logs c)).

Definition setLogs (f : list LogEntry -> list LogEntry) : Upd unit :=
  fun c => (tt, mkCells (c_alarmOn c) (f (c_logs c))).

(** [[{ message, time: time || nowISO() }, ...prev].slice(0, 200)] *)
Definition pushLog_upd (now message : string) (time : option string)
    (prev : list LogEntry) : list LogEntry :=
  firstn 200 (mkLog message (or_else time now) :: prev).

Definition pushLog (now message : string) (time : option string) : Upd unit :=
  setLogs (pushLog_upd now message time).

(** ** [simulateSensorEvent] *)

Definition abnormal (newState : string) : bool :=
  (newState =? "open") || (newState =? "motion") ||
  (newState =? "alarm") || (newState =? "alert").

(** The branches of the "custom trigger logic per sensor type" that are
    taken when no forced state is given. *)
Definition toggle (s : Sensor) : string :=
  if (type s =? "door") || (type s =? "window") then
    if state s =? "open" then "closed" else "open"
  else if type s =? "motion" then
    if state s =? "motion" then "idle" else "motion"
  else if type s =? "camera" then
    if state s =? "ok" then "alert" else "ok"
  else if type s =? "smoke" then
    if state s =? "alarm" then "ok" else "alarm"
  else
    if state s =? "ok" then "alert" else "ok".

(** [if (forcedState) newState = forcedState; else ...]: the default
    [null] and the empty string are falsy. *)
Definition nextState (forcedState : option string) (s : Sensor) : string :=
  match forcedState with
  | Some f => if truthy f then f else toggle s
  | None => toggle s
  end.

Definition silence_message (s : Sensor) : string :=
  "🔕 Alarm stopped manually via " ++ name s.

Definition change_message (s : Sensor) (newState : string) : string :=
  name s ++ " — " ++ newState.

Definition alarm_message (s : Sensor) : string :=
  "🚨 ALARM TRIGGERED: " ++ name s ++ " detected activity while system armed".

(** The function mapped over [prev] by [simulateSensorEvent]. *)
Definition sensorEvent (r : Render) (now : string) (sensorId : Z)
    (forcedState : option string) (s : Sensor) : Upd Sensor :=
  if negb (id s =? sensorId)%Z then ret s else
  let eventTime := now in
  if r_alarmOn r then
    setAlarmOn false ;;
    pushLog now (silence_message s) (Some eventTime) ;;
    ret s
  else
    let newState := nextState forcedState s in
    let event := mkEvent eventTime newState (name s ++ " → " ++ newState) in
    let newHistory := firstn 30 (event :: history s) in
    pushLog now (change_message s newState) (Some eventTime) ;;
    (if r_armed r && abnormal newState then
       setAlarmOn true ;;
       pushLog now (alarm_message s) (Some eventTime)
     else ret tt) ;;
    ret (mkSensor (id s) (name s) (type s) newState (Some eventTime) newHistory).

Definition cells (st : AppState) : Cells := mkCells (alarmOn st) (logs st).

(** How React runs an updater given to a state setter.  A production
    build runs it once.  [index.js] mounts the component in
    [React.StrictMode]: there a development build runs it twice on the
    same value and keeps the second result, and the setter calls made
    inside the updater are made twice. *)
Inductive Build :=
| Production
| StrictDevelopment.

(** Run an updater of the [sensors] cell together with the setter calls
    it makes. *)
Definition setSensors (build : Build) (f : list Sensor -> Upd (list Sensor))
    (st : AppState) : AppState :=
  let (next, c) :=
    match build with
    | Production => f (sensors st) (cells st)
    | StrictDevelopment =>
        let (_, c1) := f (sensors st) (cells st) in f (sensors st) c1
    end in
  mkState next (armed st) (c_logs c) (showModal st) (selectedSensor st)
          (simulate st) (c_alarmOn c).

(** Run setter calls made outside an updater. *)
Definition run (m : Upd unit) (st : AppState) : AppState :=
  let (_, c) := m (cells st) in
  mkState (sensors st) (armed st) (c_logs c) (showModal st)
          (selectedSensor st) (simulate st) (c_alarmOn c).

Definition setArmed (b : bool) (st : AppState) : AppState :=
  mkState (sensors st) b (logs st) (showModal st) (selectedSensor st)
          (simulate st) (alarmOn st).

Definition setSimulate (f : bool -> bool) (st : AppState) : AppState :=
  mkState (sensors st) (armed st) (logs st) (showModal st)
          (selectedSensor st) (f (simulate st)) (alarmOn st).

Definition setSelectedSensor (s : option Sensor) (st : AppState) : AppState :=
  mkState (sensors st) (armed st) (logs st) (showModal st) s
          (simulate st) (alarmOn st).

Definition setShowModal (b : bool) (st : AppState) : AppState :=
  mkState (sensors st) (armed st) (logs st) b (selectedSensor st)
          (simulate st) (alarmOn st).

Definition simulateSensorEvent (build : Build) (r : Render) (now : string)
    (sensorId : Z) (forcedState : option string) (st : AppState) : AppState :=
  setSensors build (mapM (sensorEvent r now sensorId forcedState)) st.

(** ** The other handlers *)

Definition openSensorModal (sensor : Sensor) (st : AppState) : AppState :=
  setShowModal true (setSelectedSensor (Some sensor) st).

(** The state a sensor is reset to by an acknowledgement. *)
Definition normalState (s : Sensor) : string :=
  if type s =? "motion" then "idle"
  else if type s =? "smoke" then "ok"
  else if type s =? "camera" then "ok"
  else "closed".

Definition ackSensor (sensorId : Z) (s : Sensor) : Sensor :=
  if (id s =? sensorId)%Z
  then mkSensor (id s) (name s) (type s) (normalState s) (lastEvent s)
                (history s)
  else s.

(** [`${selectedSensor?.name}`]: a missing selection prints as
    ["undefined"]. *)
Definition selected_name (r : Render) : string :=
  match r_selectedSensor r with
  | Some s => name s
  | None => "undefined"
  end.

Definition performSensorAck (build : Build) (r : Render) (now : string)
    (sensorId : Z) (st : AppState) : AppState :=
  let st1 :=
    setSensors build (fun prev => ret (map (ackSensor sensorId) prev)) st in
  let st2 := run (pushLog now ("Acknowledged " ++ selected_name r) (Some now)) st1 in
  run (setAlarmOn false) st2.

Definition armSystem (now : string) (st : AppState) : AppState :=
  run (pushLog now "System armed" (Some now)) (setArmed true st).

Definition disarmSystem (now : string) (st : AppState) : AppState :=
  run (pushLog now "System disarmed" (Some now))
      (run (setAlarmOn false) (setArmed false st)).

Definition quickToggle (build : Build) (r : Render) (now : string)
    (sensor : Sensor) (st : AppState) : AppState :=
  simulateSensorEvent build r now (id sensor) None st.

(** The buttons of the info banner and of the sensor cards. *)
Definition armButton (r : Render) (now : string) (st : AppState) : AppState :=
  if r_armed r then disarmSystem now st else armSystem now st.

Definition simulationButton (r : Render) (now : string) (st : AppState)
    : AppState :=
  run (pushLog now
         ("Simulation " ++ (if r_simulate r then "disabled" else "enabled"))
         None)
      (setSimulate negb st).

Definition clearLogsButton (now : string) (st : AppState) : AppState :=
  run (pushLog now "Cleared logs" None) (run (setLogs (fun _ => [])) st).

Definition soundAlarmCheckbox (r : Render) (now : string) (st : AppState)
    : AppState :=
  run (pushLog now (if r_alarmOn r then "Alarm silenced" else "Alarm sounded")
         None)
      (run (setAlarmOn (negb (r_alarmOn r))) st).

Definition checkButton (now : string) (sensor : Sensor) (st : AppState)
    : AppState :=
  run (pushLog now ("Checked " ++ name sensor) None) st.

(** ** Operations *)

(** What the buttons, the modal and the simulation timer can call. *)
Inductive Command :=
| ArmButton
| SimulationButton
| ClearLogsButton
| SoundAlarmCheckbox
| OpenSensorModal (sensor : Sensor)
| QuickToggle (sensor : Sensor)
| CheckButton (sensor : Sensor)
| SimulateSensorEvent (sensorId : Z) (forcedState : option string)
| PerformSensorAck (sensorId : Z)
| ArmSystem
| DisarmSystem.

Definition handle (build : Build) (r : Render) (now : string)
    (cmd : Command) (st : AppState) : AppState :=
  match cmd with
  | ArmButton => armButton r now st
  | SimulationButton => simulationButton r now st
  | ClearLogsButton => clearLogsButton now st
  | SoundAlarmCheckbox => soundAlarmCheckbox r now st
  | OpenSensorModal sensor => openSensorModal sensor st
  | QuickToggle sensor => quickToggle build r now sensor st
  | CheckButton sensor => checkButton now sensor st
  | SimulateSensorEvent sensorId forcedState =>
      simulateSensorEvent build r now sensorId forcedState st
  | PerformSensorAck sensorId => performSensorAck build r now sensorId st
  | ArmSystem => armSystem now st
  | DisarmSystem => disarmSystem now st
  end.

(** A sequence of operations, each run by a handler of some render (the
    simulation timer may hold the handler of an earlier one) at some
    clock reading. *)
Inductive steps (build : Build) : AppState -> AppState -> Prop :=
| steps_done st : steps build st st
| steps_next st r now cmd st' :
    steps build (handle build r now cmd st) st' -> steps build st st'.

(** ** Notions the statements use *)

(** The record [{...s, state, lastEvent, history}] of a transition. *)
Definition transitioned (now : string) (newState : string) (s : Sensor)
    : Sensor :=
  mkSensor (id s) (name s) (type s) newState (Some now)
    (firstn 30
       (mkEvent now newState (name s ++ " → " ++ newState) :: history s)).

(** The valid states of each sensor type, as the data model lists them;
    other types have none. *)
Definition validStates (ty : string) : list string :=
  if (ty =? "door") || (ty =? "window") then ["open"; "closed"]
  else if ty =? "motion" then ["idle"; "motion"]
  else if ty =? "camera" then ["ok"; "alert"]
  else if ty =? "smoke" then ["ok"; "alarm"]
  else [].

(** The capacity bounds of the log and of the histories. *)
Definition bounded (st : AppState) : Prop :=
  length (logs st) <= 200 /\
  Forall (fun s => length (history s) <= 30) (sensors st).


(** ** Some states *)

(** The state of a first start: nothing stored. *)
Definition start_state : AppState :=
  mkState initialSensors false [] false None true false.

(** Armed, silent. *)
Definition armed_state : AppState :=
  mkState initialSensors true [] false None true false.

(** Armed, ringing. *)
Definition demo_state : AppState :=
  mkState initialSensors true [] false None true true.

(** The smoke sensor in alarm, the system armed and ringing. *)
Definition smoke_alarm_state : AppState :=
  simulateSensorEvent Production (render armed_state) "t0" 5 None armed_state.

(** * Persistence in [localStorage] *)

(** ** JSON values and the values of the state cells

    Numbers are the integers the program stores (sensor ids). *)
Inductive JSON :=
| JNull
| JBool (b : bool)
| JNumber (n : Z)
| JString (s : string)
| JArray (items : list JSON)
| JObject (members : list (string * JSON)).

(** An evaluation that returns or throws. *)
Inductive Outcome (A : Type) :=
| Returns (a : A)
| Throws.
Arguments Returns {A} a.
Arguments Throws {A}.

(** The value of a property in the members of an object; of two members
    with one key the later one counts. *)
Fixpoint member (p : string) (members : list (string * JSON)) : option JSON :=
  match members with
  | [] => None
  | (k, v) :: rest =>
      match member p rest with
      | Some x => Some x
      | None => if k =? p then Some v else None
      end
  end.

(** [v.p] for a parsed value [v] and a property [p] that no built-in
    prototype defines (["sensors"], ["armed"], ["logs"]): [None] is
    [undefined]; reading a property of [null] throws a TypeError. *)
Definition getProp (v : JSON) (p : string) : Outcome (option JSON) :=
  match v with
  | JNull => Throws
  | JObject members => Returns (member p members)
  | _ => Returns None
  end.

(** [localStorage]: out of reach (every access throws), or the items it
    holds. *)
Inductive Storage :=
| Unavailable
| Items (items : list (string * string)).

Definition getItem (ls : Storage) (key : string) : Outcome (option string) :=
  match ls with
  | Unavailable => Throws
  | Items items =>
      Returns (option_map snd (find (fun kv => fst kv =? key) items))
  end.

Definition setItem (ls : Storage) (key value : string) : Outcome Storage :=
  match ls with
  | Unavailable => Throws
  | Items items =>
      Returns (Items ((key, value)
                        :: filter (fun kv => negb (fst kv =? key)) items))
  end.

(** The JavaScript objects of the records, property by property in the
    order of the object literals. *)
Definition event_value (e : Event) : JSON :=
  JObject [ ("time", JString (ev_time e));
            ("type", JString (ev_type e));
            ("note", JString (ev_note e)) ].

Definition sensor_value (s : Sensor) : JSON :=
  JObject [ ("id", JNumber (id s));
            ("name", JString (name s));
            ("type", JString (type s));
            ("state", JString (state s));
            ("lastEvent",
             match lastEvent s with Some t => JString t | None => JNull end);
            ("history", JArray (map event_value (history s))) ].

Definition log_value (l : LogEntry) : JSON :=
  JObject [ ("message", JString (message l)); ("time", JString (time l)) ].

(** [{ sensors, armed, logs }] *)
Definition snapshot (st : AppState) : JSON :=
  JObject [ ("sensors", JArray (map sensor_value (sensors st)));
            ("armed", JBool (armed st));
            ("logs", JArray (map log_value (logs st))) ].

(** The values the three initialisers give to their cells; [None] is
    [undefined]. *)
Record Loaded := mkLoaded {
  l_sensors : option JSON;
  l_armed : option JSON;
  l_logs : option JSON
}.

(** The documented defaults. *)
Definition defaults : Loaded :=
  mkLoaded (Some (JArray (map sensor_value initialSensors)))
           (Some (JBool false))
           (Some (JArray [])).

(** The component right after its first render. *)
Record Mounted := mkMounted {
  m_cells : Loaded;
  m_showModal : bool;
  m_selectedSensor : option Sensor;
  m_simulate : bool;
  m_alarmOn : bool
}.

Section Persistence.

(** [JSON.parse] (a thrown SyntaxError is [Throws]) and
    [JSON.stringify] of the platform. *)
Variable JSON_parse : string -> Outcome JSON.
Variable JSON_stringify : JSON -> string.

(** The initialiser of a cell:
    [try { const saved = localStorage.getItem(STORAGE_KEY);
           if (saved) return JSON.parse(saved).field; } catch (e) {}
     return fallback;] *)
Definition savedCell (field : string) (fallback : JSON) (ls : Storage)
    : option JSON :=
  match getItem ls STORAGE_KEY with
  | Returns (Some saved) =>
      if truthy saved then
        match JSON_parse saved with
        | Returns parsed =>
            match getProp parsed field with
            | Returns v => v
            | Throws => Some fallback
            end
        | Throws => Some fallback
        end
      else Some fallback
  | Returns None => Some fallback
  | Throws => Some fallback
  end.

Definition load (ls : Storage) : Loaded :=
  mkLoaded
    (savedCell "sensors" (JArray (map sensor_value initialSensors)) ls)
    (savedCell "armed" (JBool false) ls)
    (savedCell "logs" (JArray []) ls).

Definition mount (ls : Storage) : Mounted :=
  mkMounted (load ls) false None true false.

(** The effect that persists the data:
    [localStorage.setItem(STORAGE_KEY,
       JSON.stringify({ sensors, armed, logs }))]. *)
Definition persist (st : AppState) (ls : Storage) : Outcome Storage :=
  setItem ls STORAGE_KEY (JSON_stringify (snapshot st)).

End Persistence.

(** ** The loaded values as records

    The handlers above work on sensors, flags and log entries; [typed]
    reads the cells of a mounted component as such, when they hold
    such. *)

Fixpoint all_some {A} (l : list (option A)) : option (list A) :=
  match l with
  | [] => Some []
  | Some a :: l' => option_map (cons a) (all_some l')
  | None :: _ => None
  end.

Definition event_of (v : JSON) : option Event :=
  match v with
  | JObject ms =>
      match member "time" ms, member "type" ms, member "note" ms with
      | Some (JString t), Some (JString ty), Some (JString n) =>
          Some (mkEvent t ty n)
      | _, _, _ => None
      end
  | _ => None
  end.

Definition time_of (v : option JSON) : option (option string) :=
  match v with
  | Some JNull => Some None
  | Some (JString t) => Some (Some t)
  | _ => None
  end.

Definition events_of (v : option JSON) : option (list Event) :=
  match v with
  | Some (JArray l) => all_some (map event_of l)
  | _ => None
  end.

Definition sensor_of (v : JSON) : option Sensor :=
  match v with
  | JObject ms =>
      match member "id" ms, member "name" ms, member "type" ms,
            member "state" ms, time_of (member "lastEvent" ms),
            events_of (member "history" ms) with
      | Some (JNumber i), Some (JString n), Some (JString ty),
        Some (JString st), Some le, Some h =>
          Some (mkSensor i n ty st le h)
      | _, _, _, _, _, _ => None
      end
  | _ => None
  end.

Definition log_of (v : JSON) : option LogEntry :=
  match v with
  | JObject ms =>
      match member "message" ms, member "time" ms with
      | Some (JString m), Some (JString t) => Some (mkLog m t)
      | _, _ => None
      end
  | _ => None
  end.

Definition sensors_of (v : option JSON) : option (list Sensor) :=
  match v with
  | Some (JArray l) => all_some (map sensor_of l)
  | _ => None
  end.

Definition logs_of (v : option JSON) : option (list LogEntry) :=
  match v with
  | Some (JArray l) => all_some (map log_of l)
  | _ => None
  end.

Definition flag_of (v : option JSON) : option bool :=
  match v with
  | Some (JBool b) => Some b
  | _ => None
  end.

Definition typed (m : Mounted) : option AppState :=
  match sensors_of (l_sensors (m_cells m)), flag_of (l_armed (m_cells m)),
        logs_of (l_logs (m_cells m)) with
  | Some ss, Some a, Some ls =>
      Some (mkState ss a ls (m_showModal m) (m_selectedSensor m)
              (m_simulate m) (m_alarmOn m))
  | _, _, _ => None
  end.

(** ** A JSON codec

    A printer and a parser of JSON texts over the values above: the
    printer writes what [JSON.stringify] writes for them (no white space,
    the short escapes, [\u00xx] for the other control characters); the
    parser reads the JSON grammar over the same values.

    The pair is not the platform's: it stands in for it where a
    statement is run on a stored text, and only on texts on which the two
    agree (the texts the printer writes for the snapshot of a state, the
    text of the empty object, a text that is no JSON at all).  Elsewhere
    [json_parse] differs from [JSON.parse] in three ways:
    - a number with a fraction or an exponent is refused ([Throws]),
      where the platform returns it: [JNumber] holds integers only;
    - an integer is kept exactly whatever its size, where the platform
      rounds one beyond 2^53 to the nearest double;
    - an escaped surrogate pair is decoded as its two halves, each
      in UTF-8 on its own, where the platform joins them into one
      character.
    No statement about the platform is drawn from the pair: the theorems
    of the persistence part take [JSON.parse] and [JSON.stringify] as
    parameters. *)

Section Codec.

Local Open Scope nat_scope.

Definition dquote : ascii := "034"%char.
Definition backslash : ascii := "092"%char.

Definition hex (n : nat) : ascii :=
  if n <? 10 then ascii_of_nat (48 + n) else ascii_of_nat (87 + n).

Definition escape (c : ascii) (k : string) : string :=
  let n := nat_of_ascii c in
  if (c =? dquote)%char then String backslash (String dquote k)
  else if (c =? backslash)%char then String backslash (String backslash k)
  else if n =? 8 then String backslash (String "b" k)
  else if n =? 9 then String backslash (String "t" k)
  else if n =? 10 then String backslash (String "n" k)
  else if n =? 12 then String backslash (String "f" k)
  else if n =? 13 then String backslash (String "r" k)
  else if n <? 32 then
    String backslash
      (String "u" (String "0" (String "0"
         (String (hex (n / 16)) (String (hex (n mod 16)) k)))))
  else String c k.

Fixpoint quote_to (s k : string) : string :=
  match s with
  | EmptyString => String dquote k
  | String c s' => escape c (quote_to s' k)
  end.

Definition number_to (n : Z) (k : string) : string :=
  let digits := DecimalString.NilEmpty.string_of_uint (N.to_uint (Z.abs_N n)) in
  match n with
  | Zneg _ => String "-" (digits ++ k)
  | _ => digits ++ k
  end.

(** [print_to v k] is the text of [v] followed by [k]. *)
Fixpoint print_to (v : JSON) (k : string) : string :=
  match v with
  | JNull => "null" ++ k
  | JBool true => "true" ++ k
  | JBool false => "false" ++ k
  | JNumber n => number_to n k
  | JString s => String dquote (quote_to s k)
  | JArray [] => "[]" ++ k
  | JArray (v0 :: vs) =>
      String "["
        (print_to v0
           (fold_right (fun v acc => String "," (print_to v acc))
              (String "]" k) vs))
  | JObject [] => "{}" ++ k
  | JObject ((k0, v0) :: ms) =>
      String "{"
        (String dquote (quote_to k0 (String ":"
           (print_to v0
              (fold_right
                 (fun m acc =>
                    String "," (String dquote (quote_to (fst m) (String ":"
                      (print_to (snd m) acc)))))
                 (String "}" k) ms)))))
  end.

Definition json_stringify (v : JSON) : string := print_to v "".

Definition is_ws (c : ascii) : bool :=
  let n := nat_of_ascii c in
  (n =? 32) || (n =? 9) || (n =? 10) || (n =? 13).

Fixpoint skip_ws (s : string) : string :=
  match s with
  | String c s' => if is_ws c then skip_ws s' else s
  | EmptyString => s
  end.

Definition unhex (c : ascii) : option nat :=
  let n := nat_of_ascii c in
  if (48 <=? n) && (n <=? 57) then Some (n - 48)
  else if (97 <=? n) && (n <=? 102) then Some (n - 87)
  else if (65 <=? n) && (n <=? 70) then Some (n - 55)
  else None.

(** The UTF-8 bytes of a code unit (surrogate halves are encoded one by
    one). *)
Definition utf8 (n : nat) : string :=
  if n <? 128 then String (ascii_of_nat n) ""
  else if n <? 2048 then
    String (ascii_of_nat (192 + n / 64))
      (String (ascii_of_nat (128 + n mod 64)) "")
  else
    String (ascii_of_nat (224 + n / 4096))
      (String (ascii_of_nat (128 + (n / 64) mod 64))
         (String (ascii_of_nat (128 + n mod 64)) "")).

Definition unescape (e : ascii) : option ascii :=
  if (e =? dquote)%char then Some dquote
  else if (e =? backslash)%char then Some backslash
  else if (e =? "/")%char then Some "/"%char
  else if (e =? "b")%char then Some "008"%char
  else if (e =? "f")%char then Some "012"%char
  else if (e =? "n")%char then Some "010"%char
  else if (e =? "r")%char then Some "013"%char
  else if (e =? "t")%char then Some "009"%char
  else None.

(** The characters of a string literal after its opening quote, and the
    text after its closing quote. *)
Fixpoint read_string (s : string) : option (string * string) :=
  match s with
  | EmptyString => None
  | String c s1 =>
      if (c =? dquote)%char then Some ("", s1)
      else if (c =? backslash)%char then
        match s1 with
        | EmptyString => None
        | String e s2 =>
            if (e =? "u")%char then
              match s2 with
              | String h1 (String h2 (String h3 (String h4 s3))) =>
                  match unhex h1, unhex h2, unhex h3, unhex h4 with
                  | Some a, Some b, Some c', Some d =>
                      match read_string s3 with
                      | Some (str, r) =>
                          Some (utf8 (((a * 16 + b) * 16 + c') * 16 + d)
                                  ++ str, r)
                      | None => None
                      end
                  | _, _, _, _ => None
                  end
              | _ => None
              end
            else
              match unescape e with
              | Some c' =>
                  match read_string s2 with
                  | Some (str, r) => Some (String c' str, r)
                  | None => None
                  end
              | None => None
              end
        end
      else if nat_of_ascii c <? 32 then None
      else
        match read_string s1 with
        | Some (str, r) => Some (String c str, r)
        | None => None
        end
  end.

Definition digit_of (c : ascii) : option (Decimal.uint -> Decimal.uint) :=
  match nat_of_ascii c - 48 with
  | 0 => if (c =? "0")%char then Some Decimal.D0 else None
  | 1 => Some Decimal.D1
  | 2 => Some Decimal.D2
  | 3 => Some Decimal.D3
  | 4 => Some Decimal.D4
  | 5 => Some Decimal.D5
  | 6 => Some Decimal.D6
  | 7 => Some Decimal.D7
  | 8 => Some Decimal.D8
  | 9 => Some Decimal.D9
  | _ => None
  end.

Fixpoint read_digits (s : string) : Decimal.uint * string :=
  match s with
  | EmptyString => (Decimal.Nil, s)
  | String c s' =>
      match digit_of c with
      | Some digit => let (d, r) := read_digits s' in (digit d, r)
      | None => (Decimal.Nil, s)
      end
  end.

(** A fraction or an exponent follows: a number outside the integers. *)
Definition continues_number (s : string) : bool :=
  match s with
  | String c _ => (c =? ".")%char || (c =? "e")%char || (c =? "E")%char
  | EmptyString => false
  end.

Definition read_natural (s : string) : option (N * string) :=
  let (d, r) := read_digits s in
  if Decimal.uint_eq_dec d (Decimal.unorm d)
  then if continues_number r then None else Some (N.of_uint d, r)
  else None.

Definition read_number (s : string) : option (JSON * string) :=
  match s with
  | String "-" s' =>
      match read_natural s' with
      | Some (n, r) => Some (JNumber (- Z.of_N n), r)
      | None => None
      end
  | _ =>
      match read_natural s with
      | Some (n, r) => Some (JNumber (Z.of_N n), r)
      | None => None
      end
  end.

Fixpoint expect (word s : string) : option string :=
  match word with
  | EmptyString => Some s
  | String w word' =>
      match s with
      | String c s' => if (c =? w)%char then expect word' s' else None
      | EmptyString => None
      end
  end.

Fixpoint read_value (fuel : nat) (s : string) : option (JSON * string) :=
  match fuel with
  | O => None
  | S fuel' =>
      match skip_ws s with
      | EmptyString => None
      | String c rest =>
          if (c =? "n")%char then
            option_map (pair JNull) (expect "ull" rest)
          else if (c =? "t")%char then
            option_map (pair (JBool true)) (expect "rue" rest)
          else if (c =? "f")%char then
            option_map (pair (JBool false)) (expect "alse" rest)
          else if (c =? dquote)%char then
            match read_string rest with
            | Some (str, r) => Some (JString str, r)
            | None => None
            end
          else if (c =? "[")%char then
            match skip_ws rest with
            | String "]" r => Some (JArray [], r)
            | _ =>
                match read_items fuel' rest with
                | Some (vs, r) => Some (JArray vs, r)
                | None => None
                end
            end
          else if (c =? "{")%char then
            match skip_ws rest with
            | String "}" r => Some (JObject [], r)
            | _ =>
                match read_members fuel' rest with
                | Some (ms, r) => Some (JObject ms, r)
                | None => None
                end
            end
          else read_number (String c rest)
      end
  end

with read_items (fuel : nat) (s : string) : option (list JSON * string) :=
  match fuel with
  | O => None
  | S fuel' =>
      match read_value fuel' s with
      | Some (v, r) =>
          match skip_ws r with
          | String "," r' =>
              match read_items fuel' r' with
              | Some (vs, r'') => Some (v :: vs, r'')
              | None => None
              end
          | String "]" r' => Some ([v], r')
          | _ => None
          end
      | None => None
      end
  end

with read_members (fuel : nat) (s : string)
    : option (list (string * JSON) * string) :=
  match fuel with
  | O => None
  | S fuel' =>
      match skip_ws s with
      | String c s1 =>
          if (c =? dquote)%char then
            match read_string s1 with
            | Some (key, r0) =>
                match skip_ws r0 with
                | String ":" r1 =>
                    match read_value fuel' r1 with
                    | Some (v, r) =>
                        match skip_ws r with
                        | String "," r' =>
                            match read_members fuel' r' with
                            | Some (ms, r'') => Some ((key, v) :: ms, r'')
                            | None => None
                            end
                        | String "}" r' => Some ([(key, v)], r')
                        | _ => None
                        end
                    | None => None
                    end
                | _ => None
                end
            | None => None
            end
          else None
      | EmptyString => None
      end
  end.

(** The value of a JSON text; [Throws] stands for the SyntaxError.  See
    the head of this part for where it departs from [JSON.parse]. *)
Definition json_parse (s : string) : Outcome JSON :=
  match read_value (String.length s) s with
  | Some (v, r) =>
      match skip_ws r with
      | EmptyString => Returns v
      | _ => Throws
      end
  | None => Throws
  end.

End Codec.

(** ** Notions the proofs about the codec use *)

(** Induction on JSON values, through the lists they nest. *)
Fixpoint JSON_nested_ind (P : JSON -> Prop)
    (Hnull : P JNull) (Hbool : forall b, P (JBool b))
    (Hnumber : forall n, P (JNumber n)) (Hstring : forall s, P (JString s))
    (Harray : forall items, Forall P items -> P (JArray items))
    (Hobject : forall members,
        Forall (fun m => P (snd m)) members -> P (JObject members))
    (v : JSON) {struct v} : P v :=
  let rec := JSON_nested_ind P Hnull Hbool Hnumber Hstring Harray Hobject in
  match v with
  | JNull => Hnull
  | JBool b => Hbool b
  | JNumber n => Hnumber n
  | JString s => Hstring s
  | JArray items =>
      Harray items
        ((fix all (l : list JSON) : Forall P l :=
            match l with
            | [] => Forall_nil P
            | x :: l' => Forall_cons x (rec x) (all l')
            end) items)
  | JObject members =>
      Hobject members
        ((fix all (l : list (string * JSON)) : Forall (fun m => P (snd m)) l :=
            match l with
            | [] => Forall_nil _
            | m :: l' => Forall_cons m (rec (snd m)) (all l')
            end) members)
  end.

Definition delimited (k : string) : Prop :=
  match k with
  | EmptyString => True
  | String c _ => c = ","%char \/ c = "]"%char \/ c = "}"%char
  end.

(** Fuel that reading a value back takes. *)
Fixpoint weight (v : JSON) : nat :=
  match v with
  | JArray items => S (fold_right (fun v acc => S (weight v + acc)) 0 items)
  | JObject members =>
      S (fold_right (fun m acc => S (weight (snd m) + acc)) 0 members)
  | _ => 1
  end.

Definition print_items (vs : list JSON) (k : string) : string :=
  fold_right (fun v acc => String "," (print_to v acc)) (String "]" k) vs.

Definition print_members (ms : list (string * JSON)) (k : string) : string :=
  fold_right
    (fun m acc =>
       String "," (String dquote (quote_to (fst m) (String ":"
         (print_to (snd m) acc)))))
    (String "}" k) ms.

Definition head_chars : list ascii :=
  ["n"; "t"; "f"; dquote; "["; "{"; "-";
   "0"; "1"; "2"; "3"; "4"; "5"; "6"; "7"; "8"; "9"]%char.

Definition reads_back (v : JSON) : Prop :=
  forall fuel k, weight v <= fuel -> delimited k ->
    read_value fuel (print_to v k) = Some (v, k).

(** * The page: what is shown, what can be clicked, the simulation timer *)

(** ** The sensor cards *)

(** [["open", "motion", "alarm", "alert"].includes(sensor.state)] *)
Definition alerting (sensor : Sensor) : bool :=
  existsb (String.eqb (state sensor)) ["open"; "motion"; "alarm"; "alert"].

Definition cardClass (sensor : Sensor) : string :=
  "parking-spot " ++ (if alerting sensor then "occupied" else "available").

Definition badgeClass (sensor : Sensor) : string :=
  "status-badge " ++
  (if alerting sensor then "badge-occupied" else "badge-available").

(** [{cond && text}]: [false] renders nothing. *)
Definition shown (cond : bool) (text : string) : string :=
  if cond then text else "".

(** The text of the status badge. *)
Definition badgeText (sensor : Sensor) : string :=
  shown (state sensor =? "open") "🚪 Open" ++
  shown (state sensor =? "closed") "🔒 Closed" ++
  shown (state sensor =? "idle") "🕊️ Idle" ++
  shown (state sensor =? "motion") "🕵️ Motion" ++
  shown (state sensor =? "alarm") "🔥 Smoke" ++
  shown (state sensor =? "ok") "✅ OK" ++
  shown (state sensor =? "alert") "📷 Alert".

(** The states that have a badge. *)
Definition badgedStates : list string :=
  ["open"; "closed"; "idle"; "motion"; "alarm"; "ok"; "alert"].

(** ** Clicks

    The elements of the page and the handlers they run; the modal that
    would call [performSensorAck] is not rendered, and the cards show the
    sensors of the state. *)
Definition onScreen (st : AppState) (cmd : Command) : Prop :=
  match cmd with
  | ArmButton | SimulationButton | ClearLogsButton | SoundAlarmCheckbox =>
      True
  | OpenSensorModal sensor | QuickToggle sensor | CheckButton sensor =>
      In sensor (sensors st)
  | SimulateSensorEvent _ _ | PerformSensorAck _ | ArmSystem | DisarmSystem =>
      False
  end.

(** ** The simulation effect

    [useEffect(() => { if (!simulate) return; const interval =
    setInterval(...); return () => clearInterval(interval); },
    [simulate, sensors])]: the interval is set up anew after a render in
    which [simulate] or [sensors] changed, and keeps the [sensors] and the
    [simulateSensorEvent] of that render until then. *)
Record Interval := mkInterval {
  i_render : Render;
  i_sensors : list Sensor
}.

Record Page := mkPage {
  page_state : AppState;
  page_interval : option Interval
}.

Definition simulationEffect (st : AppState) : option Interval :=
  if simulate st then Some (mkInterval (render st) (sensors st)) else None.

(** The handlers that call [setSensors] (whose updater returns a new
    array) or [setSimulate]. *)
Definition restartsInterval (cmd : Command) : bool :=
  match cmd with
  | SimulationButton | QuickToggle _ | SimulateSensorEvent _ _
  | PerformSensorAck _ => true
  | _ => false
  end.

(** A click runs the handler of the render on the page. *)
Definition click (build : Build) (now : string) (cmd : Command) (p : Page)
    : Page :=
  let st' := handle build (render (page_state p)) now cmd (page_state p) in
  mkPage st'
    (if restartsInterval cmd then simulationEffect st' else page_interval p).

(** A tick of the interval, with its two random draws: [hit] is
    [chance < 0.3] and [idx] is [Math.floor(Math.random() *
    sensors.length)].  [sensors[idx].id] throws when there is no such
    sensor. *)
Definition tick (build : Build) (hit : bool) (idx : nat) (now : string)
    (p : Page) : Outcome Page :=
  match page_interval p with
  | None => Returns p
  | Some i =>
      if hit then
        match nth_error (i_sensors i) idx with
        | Some sensor =>
            let st' := simulateSensorEvent build (i_render i) now (id sensor)
                         None (page_state p) in
            Returns (mkPage st' (simulationEffect st'))
        | None => Throws
        end
      else Returns p
  end.

(** The page after its first render. *)
Definition firstPage (st : AppState) : Page := mkPage st (simulationEffect st).

(** What clicks and ticks lead to. *)
Inductive reaches (build : Build) : Page -> Page -> Prop :=
| reaches_here p : reaches build p p
| reaches_click p now cmd p' :
    onScreen (page_state p) cmd ->
    reaches build (click build now cmd p) p' -> reaches build p p'
| reaches_tick p hit idx now p1 p' :
    tick build hit idx now p = Returns p1 -> reaches build p1 p' ->
    reaches build p p'.

(** ** Notions the statements about the page use *)

(** The part of a sensor record that no handler writes. *)
Definition nameplate (s : Sensor) : Z * string * string :=
  (id s, name s, type s).

(** The newest event of the history is the one that set the state. *)
Definition recorded (s : Sensor) : Prop :=
  match history s with
  | [] => True
  | e :: _ => ev_type e = state s /\ lastEvent s = Some (ev_time e)
  end /\
  Forall (fun e => ev_note e = name s ++ " → " ++ ev_type e) (history s).

(** The interval exists while the simulation is on and holds the sensors
    of the page. *)
Definition interval_ok (p : Page) : Prop :=
  match page_interval p with
  | None => simulate (page_state p) = false
  | Some i =>
      simulate (page_state p) = true /\
      i_sensors i = sensors (page_state p)
  end.

(** The log after a series of [pushLog(message, time)] calls, each with
    its clock reading. *)
Definition pushAll (calls : list (string * string * option string))
    (prev : list LogEntry) : list LogEntry :=
  fold_left
    (fun l call => pushLog_upd (fst (fst call)) (snd (fst call)) (snd call) l)
    calls prev.

(** * Properties of the sensor/alarm state machine *)

#[local] Arguments firstn : simpl never.

(** ** The traversal of [simulateSensorEvent] *)

Section Traversal.

Variables (r : Render) (now : string) (sensorId : Z)
          (forcedState : option string).

Lemma sensorEvent_other s c :
  id s <> sensorId -> sensorEvent r now sensorId forcedState s c = (s, c).
Proof.
  intros H. unfold sensorEvent.
  destruct (Z.eqb_spec (id s) sensorId); [contradiction | reflexivity].
Qed.

(** The record returned for a sensor does not depend on the cells. *)
Lemma sensorEvent_fst s c c' :
  fst (sensorEvent r now sensorId forcedState s c) =
  fst (sensorEvent r now sensorId forcedState s c').
Proof.
  unfold sensorEvent.
  destruct (negb (id s =? sensorId)%Z); [reflexivity |].
  destruct (r_alarmOn r); [reflexivity |].
  destruct (r_armed r && abnormal (nextState forcedState s)); reflexivity.
Qed.

Lemma mapM_app {A B} (g : A -> Upd B) l1 l2 c :
  mapM g (l1 ++ l2)%list c =
  let (a, c1) := mapM g l1 c in
  let (b, c2) := mapM g l2 c1 in ((a ++ b)%list, c2).
Proof.
  revert c. induction l1 as [| x l1 IH]; intros c; simpl.
  - unfold ret. destruct (mapM g l2 c); reflexivity.
  - unfold bind, ret. destruct (g x c) as [b c1]. rewrite IH.
    destruct (mapM g l1 c1) as [a c2].
    destruct (mapM g l2 c2); reflexivity.
Qed.

Lemma mapM_length {A B} (g : A -> Upd B) l c :
  length (fst (mapM g l c)) = length l.
Proof.
  revert c. induction l as [| x l IH]; intros c; simpl; [reflexivity |].
  unfold bind, ret. destruct (g x c) as [b c1].
  specialize (IH c1). destruct (mapM g l c1); simpl in *. now rewrite IH.
Qed.

Lemma mapM_nth_error {A B} (g : A -> Upd B) l c i a :
  nth_error l i = Some a ->
  exists c', nth_error (fst (mapM g l c)) i = Some (fst (g a c')).
Proof.
  revert c i. induction l as [| x l IH]; intros c i H.
  - destruct i; discriminate.
  - simpl. unfold bind, ret. destruct (g x c) as [b c1] eqn:E.
    specialize (IH c1). destruct (mapM g l c1) as [bs c2].
    destruct i as [| i]; simpl in *.
    + injection H as <-. exists c. now rewrite E.
    + apply IH, H.
Qed.

Lemma mapM_sensorEvent_none l c :
  (forall s, In s l -> id s <> sensorId) ->
  mapM (sensorEvent r now sensorId forcedState) l c = (l, c).
Proof.
  revert c. induction l as [| x l IH]; intros c H; simpl; [reflexivity |].
  unfold bind, ret. rewrite sensorEvent_other by (apply H; now left).
  rewrite IH by (intros s Hs; apply H; now right). reflexivity.
Qed.

(** With unique ids the traversal touches one record and runs the
    setter calls of that record only. *)
Lemma mapM_sensorEvent_unique l c s :
  NoDup (map id l) -> In s l -> id s = sensorId ->
  exists l1 l2,
    l = (l1 ++ s :: l2)%list /\
    (forall x, In x l1 \/ In x l2 -> id x <> sensorId) /\
    mapM (sensorEvent r now sensorId forcedState) l c =
    let sc := sensorEvent r now sensorId forcedState s c in
    ((l1 ++ fst sc :: l2)%list, snd sc).
Proof.
  intros Hnd Hin Hid.
  destruct (in_split _ _ Hin) as (l1 & l2 & ->).
  exists l1, l2. split; [reflexivity |].
  assert (Hoth : forall x, In x l1 \/ In x l2 -> id x <> sensorId).
  { intros x Hx Hxid. rewrite map_app in Hnd. simpl in Hnd.
    apply NoDup_remove_2 in Hnd. apply Hnd. rewrite Hid, <- Hxid.
    apply in_or_app. destruct Hx; [left | right]; now apply in_map. }
  split; [exact Hoth |].
  rewrite mapM_app.
  rewrite mapM_sensorEvent_none by (intros; apply Hoth; now left).
  simpl. unfold bind, ret.
  destruct (sensorEvent r now sensorId forcedState s c) as [s' c1].
  rewrite mapM_sensorEvent_none by (intros; apply Hoth; now right).
  reflexivity.
Qed.

End Traversal.

Lemma abnormal_spec newState :
  abnormal newState = true <->
  In newState ["open"; "motion"; "alarm"; "alert"].
Proof.
  unfold abnormal. rewrite !orb_true_iff, !String.eqb_eq. simpl.
  intuition congruence.
Qed.

(** What [sensorEvent] does on the sensor it is aimed at. *)
Lemma sensorEvent_silence r now forcedState s c :
  r_alarmOn r = true ->
  sensorEvent r now (id s) forcedState s c =
  (s, mkCells false (firstn 200 (mkLog (silence_message s) now :: c_logs c))).
Proof.
  intros Hr. unfold sensorEvent. rewrite Z.eqb_refl, Hr. simpl.
  unfold bind, pushLog, setLogs, setAlarmOn, pushLog_upd, ret. simpl.
  now destruct (truthy now).
Qed.

Lemma sensorEvent_transition r now forcedState s c :
  r_alarmOn r = false ->
  sensorEvent r now (id s) forcedState s c =
  let newState := nextState forcedState s in
  let l1 := firstn 200 (mkLog (change_message s newState) now :: c_logs c) in
  (transitioned now newState s,
   if r_armed r && abnormal newState
   then mkCells true (firstn 200 (mkLog (alarm_message s) now :: l1))
   else mkCells (c_alarmOn c) l1).
Proof.
  intros Hr. unfold sensorEvent. rewrite Z.eqb_refl, Hr. simpl.
  unfold bind, pushLog, setLogs, setAlarmOn, pushLog_upd, ret. simpl.
  destruct (r_armed r && abnormal (nextState forcedState s)); simpl;
    destruct (truthy now); reflexivity.
Qed.

Lemma mapM_sensorEvent_at r now sensorId forcedState l1 s l2 c :
  (forall x, In x l1 \/ In x l2 -> id x <> sensorId) ->
  mapM (sensorEvent r now sensorId forcedState) (l1 ++ s :: l2)%list c =
  let sc := sensorEvent r now sensorId forcedState s c in
  ((l1 ++ fst sc :: l2)%list, snd sc).
Proof.
  intros Hoth. rewrite mapM_app.
  rewrite mapM_sensorEvent_none by (intros; apply Hoth; now left).
  simpl. unfold bind, ret.
  destruct (sensorEvent r now sensorId forcedState s c) as [s' c1].
  rewrite mapM_sensorEvent_none by (intros; apply Hoth; now right).
  reflexivity.
Qed.

(** The two ways of running the updater of [simulateSensorEvent]: the
    cells the kept run starts from are those of the state, or those the
    discarded run left. *)
Lemma simulateSensorEvent_runs build r now sensorId forcedState st :
  simulateSensorEvent build r now sensorId forcedState st =
  let m := mapM (sensorEvent r now sensorId forcedState) (sensors st) in
  let c0 := match build with
            | Production => cells st
            | StrictDevelopment => snd (m (cells st))
            end in
  mkState (fst (m c0)) (armed st) (c_logs (snd (m c0))) (showModal st)
    (selectedSensor st) (simulate st) (c_alarmOn (snd (m c0))).
Proof.
  unfold simulateSensorEvent, setSensors. cbv zeta. destruct build.
  - now destruct (mapM _ (sensors st) (cells st)).
  - destruct (mapM _ (sensors st) (cells st)) as [l c1]. cbn [snd].
    now destruct (mapM _ (sensors st) c1).
Qed.

Lemma simulateSensorEvent_unique build r now sensorId forcedState st s :
  NoDup (map id (sensors st)) -> In s (sensors st) -> id s = sensorId ->
  exists l1 l2,
    sensors st = (l1 ++ s :: l2)%list /\
    (forall x, In x l1 \/ In x l2 -> id x <> sensorId) /\
    simulateSensorEvent build r now sensorId forcedState st =
    let once := sensorEvent r now sensorId forcedState s (cells st) in
    let sc := match build with
              | Production => once
              | StrictDevelopment =>
                  sensorEvent r now sensorId forcedState s (snd once)
              end in
    mkState (l1 ++ fst sc :: l2)%list (armed st) (c_logs (snd sc))
      (showModal st) (selectedSensor st) (simulate st) (c_alarmOn (snd sc)).
Proof.
  intros Hnd Hin Hid.
  destruct (mapM_sensorEvent_unique r now sensorId forcedState
              (sensors st) (cells st) s Hnd Hin Hid) as (l1 & l2 & E & Ho & _).
  exists l1, l2. split; [exact E |]. split; [exact Ho |].
  rewrite simulateSensorEvent_runs. cbv zeta. rewrite E.
  destruct build; rewrite !mapM_sensorEvent_at by exact Ho; reflexivity.
Qed.

Lemma firstn_app_firstn {A} (a l : list A) n m :
  n <= m + length a ->
  firstn n (a ++ firstn m l)%list = firstn n (a ++ l)%list.
Proof.
  revert n. induction a as [| x a IH]; intros n Hn.
  - simpl in *. rewrite firstn_firstn. f_equal. lia.
  - destruct n as [| n]; [reflexivity |].
    rewrite <- !app_comm_cons, !firstn_cons. f_equal.
    apply IH. simpl in Hn. lia.
Qed.

Lemma firstn_cons_firstn {A} (e : A) l n :
  firstn (S n) (e :: firstn (S n) l) = firstn (S n) (e :: l).
Proof. apply (firstn_app_firstn [e] l (S n) (S n)). simpl. lia. Qed.

(** ** Silencing *)

(** C1, as the code has it.  Triggering a registered sensor (ids being
    unique) from the handler of the current render, the one a click on a
    Trigger button runs, while the alarm rings turns the alarm off,
    leaves every sensor record as it was (state, history and last event
    of the targeted one included) and puts the entry "Alarm stopped
    manually via <name>", behind its bell-off sign, at the front of the
    log: once when the updater is run once, twice in a development build
    under [React.StrictMode]; this whatever the sensor's type and the
    forced state. *)
Theorem trigger_while_ringing_silences build st now sensorId forcedState s :
  NoDup (map id (sensors st)) ->
  In s (sensors st) -> id s = sensorId ->
  alarmOn st = true ->
  let st' :=
    simulateSensorEvent build (render st) now sensorId forcedState st in
  let entry := mkLog ("🔕 Alarm stopped manually via " ++ name s) now in
  alarmOn st' = false /\
  armed st' = armed st /\
  sensors st' = sensors st /\
  logs st' =
    firstn 200
      (match build with
       | Production => [entry]
       | StrictDevelopment => [entry; entry]
       end ++ logs st)%list.
Proof.
  intros Hnd Hin Hid Hon.
  destruct (simulateSensorEvent_unique build (render st) now sensorId
              forcedState st s Hnd Hin Hid) as (l1 & l2 & E & _ & Hs).
  cbv zeta. rewrite Hs. subst sensorId. cbv zeta.
  assert (Hr : r_alarmOn (render st) = true) by exact Hon.
  destruct build; rewrite !sensorEvent_silence by exact Hr;
    cbn [fst snd c_alarmOn c_logs cells alarmOn armed sensors logs];
    (split; [reflexivity |]); (split; [reflexivity |]);
    (split; [now rewrite E |]).
  - reflexivity.
  - apply firstn_cons_firstn.
Qed.

Lemma trigger_while_ringing_silences_witness :
  let st' := simulateSensorEvent StrictDevelopment (render demo_state) "t" 4
               (Some "alert") demo_state in
  alarmOn st' = false /\
  armed st' = true /\
  sensors st' = initialSensors /\
  logs st' = [mkLog "🔕 Alarm stopped manually via Garage Camera" "t";
              mkLog "🔕 Alarm stopped manually via Garage Camera" "t"].
Proof.
  apply (trigger_while_ringing_silences StrictDevelopment demo_state "t" 4
           (Some "alert") (mkSensor 4 "Garage Camera" "camera" "ok" None [])).
  - repeat constructor; simpl; intuition discriminate.
  - simpl. tauto.
  - reflexivity.
  - reflexivity.
Defined.

(** C1 as it is stated fails for a call from the simulation interval.  A
    click on the Sound Alarm checkbox rings the alarm and leaves the
    interval with the handler of the render before: the next tick that
    fires finds [alarmOn] false in that handler, opens the front door
    and leaves the alarm on.  And where the alarm is silenced, by a
    click on a Trigger button, the entry is not the quoted text: it
    starts with the bell-off sign. *)
Lemma tick_while_ringing_moves_sensor :
  let p1 := click Production "t1" SoundAlarmCheckbox (firstPage start_state) in
  alarmOn (page_state p1) = true /\
  (exists p2,
     tick Production true 0 "t2" p1 = Returns p2 /\
     alarmOn (page_state p2) = true /\
     map state (sensors (page_state p2))
       = ["open"; "closed"; "idle"; "ok"; "ok"] /\
     map message (logs (page_state p2))
       = ["Front Door — open"; "Alarm sounded"]) /\
  map message
    (logs (page_state
             (click Production "t2"
                (QuickToggle (mkSensor 1 "Front Door" "door" "closed" None []))
                p1)))
    = ["🔕 Alarm stopped manually via Front Door"; "Alarm sounded"] /\
  "🔕 Alarm stopped manually via Front Door"
    <> "Alarm stopped manually via Front Door".
Proof.
  split; [reflexivity |]. split.
  - eexists. split; [reflexivity |]. repeat split.
  - split; [reflexivity | discriminate].
Qed.

(** ** The arming check *)

(** C2, as the code has it.  A trigger of a registered sensor (ids being
    unique) from the handler of the current render, while the alarm is
    silent, moves the sensor to its new state; if the system is armed
    and that state is one of open, motion, alarm, alert, the alarm is on
    afterwards and the entry "ALARM TRIGGERED: <name> detected activity
    while system armed", behind its siren sign, is put on the log, in
    front of the entry of the state change; if the system is not armed,
    or the new state is none of the four, the alarm flag is left as it
    was and the state change alone is logged.  The entries are written
    once when the updater is run once, twice in a development build
    under [React.StrictMode]. *)
Theorem arming_check build st now sensorId forcedState s :
  NoDup (map id (sensors st)) ->
  In s (sensors st) -> id s = sensorId ->
  alarmOn st = false ->
  let st' :=
    simulateSensorEvent build (render st) now sensorId forcedState st in
  let newState := nextState forcedState s in
  let change := mkLog (name s ++ " — " ++ newState) now in
  let alarm :=
    mkLog ("🚨 ALARM TRIGGERED: " ++ name s ++
           " detected activity while system armed") now in
  In (transitioned now newState s) (sensors st') /\
  (armed st = true ->
   In newState ["open"; "motion"; "alarm"; "alert"] ->
   alarmOn st' = true /\
   logs st' =
     firstn 200
       (match build with
        | Production => [alarm; change]
        | StrictDevelopment => [alarm; change; alarm; change]
        end ++ logs st)%list) /\
  (armed st = false \/
   ~ In newState ["open"; "motion"; "alarm"; "alert"] ->
   alarmOn st' = alarmOn st /\
   logs st' =
     firstn 200
       (match build with
        | Production => [change]
        | StrictDevelopment => [change; change]
        end ++ logs st)%list).
Proof.
  intros Hnd Hin Hid Hoff.
  destruct (simulateSensorEvent_unique build (render st) now sensorId
              forcedState st s Hnd Hin Hid) as (l1 & l2 & E & _ & Hs).
  cbv zeta. rewrite Hs. subst sensorId. cbv zeta.
  assert (Hr : r_alarmOn (render st) = false) by exact Hoff.
  change (r_armed (render st)) with (armed st).
  split; [| split].
  - cbn [sensors]. apply in_or_app. right. left.
    destruct build; now rewrite !sensorEvent_transition by exact Hr.
  - intros Ha Hab. apply abnormal_spec in Hab.
    destruct build; rewrite !sensorEvent_transition by exact Hr;
      cbv zeta; cbn [r_armed render]; rewrite Ha, Hab;
      cbn [andb fst snd c_alarmOn c_logs cells alarmOn logs];
      (split; [reflexivity |]).
    + apply firstn_cons_firstn.
    + unfold alarm_message, change_message.
      rewrite !firstn_cons_firstn.
      apply (firstn_app_firstn [_; _] _ 200 200). simpl. lia.
  - intros H.
    assert (Hc : armed st && abnormal (nextState forcedState s) = false).
    { destruct H as [-> | Hn]; [reflexivity |].
      apply andb_false_iff. right.
      destruct (abnormal (nextState forcedState s)) eqn:Eab; [| reflexivity].
      apply abnormal_spec in Eab. contradiction. }
    destruct build; rewrite !sensorEvent_transition by exact Hr;
      cbv zeta; cbn [r_armed render]; rewrite Hc;
      cbn [fst snd c_alarmOn c_logs cells alarmOn logs];
      (split; [reflexivity |]).
    + reflexivity.
    + unfold change_message. now rewrite !firstn_cons_firstn.
Qed.

Lemma arming_check_witness :
  let st' := simulateSensorEvent Production (render armed_state) "t" 1 None
               armed_state in
  In (transitioned "t" "open"
        (mkSensor 1 "Front Door" "door" "closed" None [])) (sensors st') /\
  alarmOn st' = true /\
  logs st' =
    [ mkLog "🚨 ALARM TRIGGERED: Front Door detected activity while system armed"
        "t";
      mkLog "Front Door — open" "t" ].
Proof.
  destruct (arming_check Production armed_state "t" 1 None
              (mkSensor 1 "Front Door" "door" "closed" None []))
    as (H1 & H2 & _).
  - repeat constructor; simpl; intuition discriminate.
  - simpl. tauto.
  - reflexivity.
  - reflexivity.
  - split; [exact H1 |]. apply H2; [reflexivity | simpl; tauto].
Defined.

(** C2 as it is stated fails for a transition made by the simulation
    interval.  A click on the arm button arms the system and leaves the
    interval with the handler of the render before, in which [armed] is
    false: the next tick that fires opens the front door and the alarm
    stays off although the system is armed.  And where the alarm is
    triggered, by a click on a Trigger button, the entry is not the
    quoted text: it starts with the siren sign. *)
Lemma tick_after_arming_does_not_ring :
  let p1 := click Production "t1" ArmButton (firstPage start_state) in
  armed (page_state p1) = true /\ alarmOn (page_state p1) = false /\
  (exists p2,
     tick Production true 0 "t2" p1 = Returns p2 /\
     armed (page_state p2) = true /\
     map state (sensors (page_state p2))
       = ["open"; "closed"; "idle"; "ok"; "ok"] /\
     alarmOn (page_state p2) = false) /\
  hd_error
    (map message
       (logs (page_state
                (click Production "t2"
                   (QuickToggle
                      (mkSensor 1 "Front Door" "door" "closed" None []))
                   p1))))
    = Some "🚨 ALARM TRIGGERED: Front Door detected activity while system armed"
  /\
  "🚨 ALARM TRIGGERED: Front Door detected activity while system armed"
    <> "ALARM TRIGGERED: Front Door detected activity while system armed".
Proof.
  split; [reflexivity |]. split; [reflexivity |]. split.
  - eexists. split; [reflexivity |]. repeat split.
  - split; [reflexivity | discriminate].
Qed.

(** ** The states a sensor can take *)


Lemma simulateSensorEvent_nth_error build r now sensorId forcedState st i s :
  nth_error (sensors st) i = Some s ->
  nth_error
    (sensors (simulateSensorEvent build r now sensorId forcedState st)) i =
  Some (fst (sensorEvent r now sensorId forcedState s (cells st))).
Proof.
  intros H. rewrite simulateSensorEvent_runs. cbv zeta. cbn [sensors].
  match goal with
  | |- nth_error (fst (mapM _ _ ?c0)) _ = _ =>
      destruct (mapM_nth_error (sensorEvent r now sensorId forcedState)
                  (sensors st) c0 i s H) as [c' Hc]
  end.
  rewrite Hc. f_equal. apply sensorEvent_fst.
Qed.




(** ** Frame of a trigger *)

(** C6.  A trigger, from any render, keeps the number of sensors and
    returns every record whose id differs from [sensorId] as it was; with
    unique ids at most one position of the registry differs afterwards;
    and when no sensor has that id the whole state is as before (no
    sensor, no log entry, no alarm change).  The handler is a total
    function: it has no failing case. *)
Theorem trigger_frame build r now sensorId forcedState st :
  let st' := simulateSensorEvent build r now sensorId forcedState st in
  length (sensors st') = length (sensors st) /\
  (forall i s, nth_error (sensors st) i = Some s -> id s <> sensorId ->
               nth_error (sensors st') i = Some s) /\
  (NoDup (map id (sensors st)) ->
   forall i j,
     nth_error (sensors st') i <> nth_error (sensors st) i ->
     nth_error (sensors st') j <> nth_error (sensors st) j -> i = j) /\
  ((forall s, In s (sensors st) -> id s <> sensorId) -> st' = st).
Proof.
  cbv zeta.
  assert (Hlen : length (sensors (simulateSensorEvent build r now sensorId
                                    forcedState st)) = length (sensors st)).
  { rewrite simulateSensorEvent_runs. cbv zeta. cbn [sensors].
    apply mapM_length. }
  assert (Hframe : forall i s, nth_error (sensors st) i = Some s ->
            id s <> sensorId ->
            nth_error (sensors (simulateSensorEvent build r now sensorId
                                  forcedState st)) i = Some s).
  { intros i s Hi Hne.
    rewrite (simulateSensorEvent_nth_error build _ _ _ _ _ _ _ Hi).
    now rewrite sensorEvent_other. }
  split; [exact Hlen |]. split; [exact Hframe |]. split.
  - intros Hnd.
    assert (Hhit : forall i,
              nth_error (sensors (simulateSensorEvent build r now sensorId
                                    forcedState st)) i
              <> nth_error (sensors st) i ->
              i < length (map id (sensors st)) /\
              nth_error (map id (sensors st)) i = Some sensorId).
    { intros i Hch. destruct (nth_error (sensors st) i) as [s |] eqn:Ei.
      - destruct (Z.eq_dec (id s) sensorId) as [Heq | Hne].
        + split.
          * rewrite length_map. apply nth_error_Some. congruence.
          * rewrite nth_error_map, Ei. simpl. now rewrite Heq.
        + exfalso. apply Hch. now apply Hframe.
      - exfalso. apply Hch. apply nth_error_None. rewrite Hlen.
        now apply nth_error_None. }
    intros i j Hi Hj.
    destruct (Hhit i Hi) as [Hlt Ei]. destruct (Hhit j Hj) as [_ Ej].
    apply (proj1 (NoDup_nth_error _) Hnd i j Hlt). congruence.
  - intros Hnone. rewrite simulateSensorEvent_runs. cbv zeta.
    destruct build; rewrite !mapM_sensorEvent_none by exact Hnone;
      destruct st; reflexivity.
Qed.

Lemma trigger_frame_witness :
  simulateSensorEvent Production (render armed_state) "t" 9 (Some "open")
    armed_state
  = armed_state.
Proof.
  apply (trigger_frame Production (render armed_state) "t" 9 (Some "open")
           armed_state).
  simpl. intros s H.
  repeat (destruct H as [<- | H]; [discriminate |]). destruct H.
Defined.

(** ** Acknowledgement *)

(** The updater of [performSensorAck] calls no setter: running it twice
    changes nothing. *)
Lemma performSensorAck_build build r now sensorId st :
  performSensorAck build r now sensorId st =
  performSensorAck Production r now sensorId st.
Proof. destruct build; reflexivity. Qed.

(** C4, as the code has it.  Acknowledging a registered sensor resets its
    state to the normal value of its type (motion: idle, smoke: ok,
    camera: ok, door and window: closed), turns the alarm off whatever
    [armed] and [alarmOn] were, and logs "Acknowledged <name>" where
    <name> is the name of the sensor selected in the modal, printed
    "undefined" when none is selected; it is the acknowledged sensor's
    name when the selected sensor carries that name. *)
Theorem acknowledge_sensor build r now sensorId st i s :
  nth_error (sensors st) i = Some s -> id s = sensorId ->
  let st' := performSensorAck build r now sensorId st in
  (exists s',
     nth_error (sensors st') i = Some s' /\
     id s' = id s /\ name s' = name s /\ type s' = type s /\
     lastEvent s' = lastEvent s /\ history s' = history s /\
     (type s = "motion" -> state s' = "idle") /\
     (type s = "smoke" -> state s' = "ok") /\
     (type s = "camera" -> state s' = "ok") /\
     (type s = "door" \/ type s = "window" -> state s' = "closed")) /\
  alarmOn st' = false /\
  armed st' = armed st /\
  logs st' =
    firstn 200
      (mkLog ("Acknowledged " ++
              match r_selectedSensor r with
              | Some sel => name sel
              | None => "undefined"
              end) now :: logs st) /\
  (forall sel, r_selectedSensor r = Some sel -> name sel = name s ->
     logs st' = firstn 200 (mkLog ("Acknowledged " ++ name s) now :: logs st)).
Proof.
  intros Hi Hid. cbv zeta. rewrite (performSensorAck_build build).
  assert (Hlogs : logs (performSensorAck Production r now sensorId st) =
                  firstn 200 (mkLog ("Acknowledged " ++ selected_name r) now
                                :: logs st)).
  { unfold performSensorAck, run, setSensors, pushLog, setLogs, setAlarmOn,
      pushLog_upd, ret, cells. simpl. now destruct (truthy now). }
  split; [| split; [| split; [| split]]].
  - exists (ackSensor sensorId s). split.
    + unfold performSensorAck, run, setSensors, ret. simpl.
      now rewrite nth_error_map, Hi.
    + unfold ackSensor. rewrite Hid, Z.eqb_refl. simpl.
      repeat split; unfold normalState.
      * now intros ->.
      * now intros ->.
      * now intros ->.
      * now intros [-> | ->].
  - reflexivity.
  - reflexivity.
  - exact Hlogs.
  - intros sel Hsel Hname. rewrite Hlogs. unfold selected_name.
    now rewrite Hsel, Hname.
Qed.

Lemma acknowledge_sensor_witness :
  let st' := performSensorAck Production
               (mkRender true true true
                  (Some (mkSensor 5 "Kitchen Smoke" "smoke" "alarm" None [])))
               "t" 5 smoke_alarm_state in
  (exists s', nth_error (sensors st') 4 = Some s' /\ state s' = "ok") /\
  alarmOn st' = false /\
  hd_error (logs st') = Some (mkLog "Acknowledged Kitchen Smoke" "t").
Proof.
  destruct (acknowledge_sensor Production
              (mkRender true true true
                 (Some (mkSensor 5 "Kitchen Smoke" "smoke" "alarm" None [])))
              "t" 5 smoke_alarm_state 4
              (mkSensor 5 "Kitchen Smoke" "smoke" "alarm" (Some "t0")
                 [mkEvent "t0" "alarm" "Kitchen Smoke → alarm"]))
    as ((s' & H1 & _ & _ & _ & _ & _ & _ & H2 & _) & H3 & _ & _ & H4).
  - reflexivity.
  - reflexivity.
  - cbv zeta. split; [| split].
    + exists s'. split; [exact H1 | now apply H2].
    + exact H3.
    + rewrite (H4 _ eq_refl eq_refl). reflexivity.
Defined.

(** C4 as it is stated fails on the name: with no sensor selected (the
    value of [selectedSensor] at start), acknowledging the smoke sensor
    logs "Acknowledged undefined", not "Acknowledged Kitchen Smoke". *)
Lemma acknowledge_logs_selected_name :
  let st' := performSensorAck Production (render smoke_alarm_state) "t" 5
               smoke_alarm_state in
  map name (filter (fun s => (id s =? 5)%Z) (sensors smoke_alarm_state))
    = ["Kitchen Smoke"] /\
  hd_error (logs st') = Some (mkLog "Acknowledged undefined" "t") /\
  hd_error (logs st') <> Some (mkLog "Acknowledged Kitchen Smoke" "t").
Proof.
  split; [reflexivity |]. split; [reflexivity |]. discriminate.
Qed.

(** ** Clearing the log *)

(** C9.  Whatever the log held, after the Clear Logs command it holds
    exactly one entry, "Cleared logs". *)
Theorem clear_logs_leaves_one_entry now st :
  logs (clearLogsButton now st) = [mkLog "Cleared logs" now].
Proof. reflexivity. Qed.

(** ** Operations and the capacity bounds *)

Lemma slice_front {A} n (e : A) l :
  length l <= S n ->
  firstn (S n) (e :: l) =
  e :: (if (length l <? S n)%nat then l else removelast l).
Proof.
  intros H. rewrite firstn_cons. f_equal.
  destruct (Nat.ltb_spec (length l) (S n)).
  - apply firstn_all2. lia.
  - rewrite removelast_firstn_len. f_equal. lia.
Qed.

Lemma sensorEvent_bounded r now sensorId forcedState s c :
  length (history s) <= 30 -> length (c_logs c) <= 200 ->
  length (history (fst (sensorEvent r now sensorId forcedState s c))) <= 30 /\
  length (c_logs (snd (sensorEvent r now sensorId forcedState s c))) <= 200.
Proof.
  intros Hh Hl. destruct (Z.eq_dec (id s) sensorId) as [<- | Hne].
  - destruct (r_alarmOn r) eqn:E.
    + rewrite sensorEvent_silence by exact E. cbn [fst snd c_logs].
      split; [exact Hh | apply firstn_le_length].
    + rewrite sensorEvent_transition by exact E. cbv zeta. cbn [fst snd].
      destruct (r_armed r && abnormal (nextState forcedState s));
        cbn [c_logs transitioned history]; split; apply firstn_le_length.
  - rewrite sensorEvent_other by exact Hne. now split.
Qed.

Lemma mapM_sensorEvent_bounded r now sensorId forcedState l c :
  Forall (fun s => length (history s) <= 30) l -> length (c_logs c) <= 200 ->
  Forall (fun s => length (history s) <= 30)
    (fst (mapM (sensorEvent r now sensorId forcedState) l c)) /\
  length (c_logs (snd (mapM (sensorEvent r now sensorId forcedState) l c)))
    <= 200.
Proof.
  intros Hl. revert c. induction Hl as [| s l Hs Hl IH]; intros c Hc.
  - split; [constructor | exact Hc].
  - simpl. unfold bind, ret.
    destruct (sensorEvent_bounded r now sensorId forcedState s c Hs Hc)
      as [H1 H2].
    destruct (sensorEvent r now sensorId forcedState s c) as [s' c1].
    simpl in H1, H2. destruct (IH c1 H2) as [H3 H4].
    destruct (mapM _ l c1) as [l' c2]. simpl in *.
    split; [now constructor | exact H4].
Qed.

Lemma simulateSensorEvent_bounded build r now sensorId forcedState st :
  bounded st ->
  bounded (simulateSensorEvent build r now sensorId forcedState st).
Proof.
  intros [Hl Hs]. rewrite simulateSensorEvent_runs. cbv zeta.
  destruct (mapM_sensorEvent_bounded r now sensorId forcedState
              (sensors st) (cells st) Hs Hl) as [H1 H2].
  destruct build.
  - now split.
  - destruct (mapM_sensorEvent_bounded r now sensorId forcedState
                (sensors st) _ Hs H2) as [H3 H4].
    now split.
Qed.

Lemma run_pushLog_bounded now message t st :
  Forall (fun s => length (history s) <= 30) (sensors st) ->
  bounded (run (pushLog now message t) st).
Proof. intros H. split; [apply firstn_le_length | exact H]. Qed.

Lemma handle_bounded build r now cmd st :
  bounded st -> bounded (handle build r now cmd st).
Proof.
  intros Hb. pose proof Hb as [Hl Hs]. destruct cmd; simpl.
  - unfold armButton. destruct (r_armed r);
      now apply run_pushLog_bounded.
  - now apply run_pushLog_bounded.
  - now apply run_pushLog_bounded.
  - now apply run_pushLog_bounded.
  - exact Hb.
  - now apply simulateSensorEvent_bounded.
  - now apply run_pushLog_bounded.
  - now apply simulateSensorEvent_bounded.
  - rewrite performSensorAck_build. unfold performSensorAck.
    split; [apply firstn_le_length |].
    simpl. apply Forall_map. revert Hs. apply Forall_impl.
    intros s Hh. unfold ackSensor. now destruct (id s =? sensorId)%Z.
  - now apply run_pushLog_bounded.
  - now apply run_pushLog_bounded.
Qed.

(** C5.  From a state within the bounds (the start state is one), every
    sequence of operations leads to a state in which the log has at most
    200 entries and every history at most 30.  There, an append to the log
    puts the new entry in front and keeps the earlier ones in their order,
    all of them below the cap and all but the last (the oldest) at the
    cap; and so does the append of an event to a sensor's history. *)
Theorem caps_hold build st st' :
  bounded st -> steps build st st' ->
  (length (logs st') <= 200 /\
   forall s, In s (sensors st') -> length (history s) <= 30) /\
  (forall now message t,
     logs (run (pushLog now message t) st') =
     mkLog message (or_else t now) ::
       (if (length (logs st') <? 200)%nat then logs st'
        else removelast (logs st'))) /\
  (forall r now forcedState s c,
     In s (sensors st') -> r_alarmOn r = false ->
     history (fst (sensorEvent r now (id s) forcedState s c)) =
     mkEvent now (nextState forcedState s)
       (name s ++ " → " ++ nextState forcedState s) ::
       (if (length (history s) <? 30)%nat then history s
        else removelast (history s))).
Proof.
  intros Hb Hst.
  assert (Hb' : bounded st').
  { induction Hst as [| st r now cmd st' _ IH]; [exact Hb |].
    apply IH. now apply handle_bounded. }
  destruct Hb' as [Hl Hs]. rewrite Forall_forall in Hs.
  split; [split; [exact Hl | exact Hs] |]. split.
  - intros now message t. unfold run, pushLog, setLogs, pushLog_upd. simpl.
    now apply slice_front.
  - intros r now forcedState s c Hin Hoff.
    rewrite sensorEvent_transition by exact Hoff. cbv zeta.
    cbn [fst transitioned history]. apply slice_front. now apply Hs.
Qed.

Lemma caps_hold_witness :
  let st' := handle Production (render armed_state) "t" (QuickToggle
               (mkSensor 1 "Front Door" "door" "closed" None [])) armed_state in
  length (logs st') <= 200 /\
  (forall s, In s (sensors st') -> length (history s) <= 30) /\
  logs (run (pushLog "u" "Checked Front Door" None) st') =
    mkLog "Checked Front Door" "u" :: logs st'.
Proof.
  destruct (caps_hold Production armed_state
              (handle Production (render armed_state) "t"
                 (QuickToggle (mkSensor 1 "Front Door" "door" "closed" None []))
                 armed_state))
    as ((H1 & H2) & H3 & _).
  - split; [simpl; lia |]. repeat constructor; simpl; lia.
  - eapply steps_next. apply steps_done.
  - cbv zeta. split; [exact H1 |]. split; [exact H2 |].
    rewrite H3. reflexivity.
Defined.

(** * The codec reads back what it prints *)

Lemma read_string_escape c k :
  read_string (escape c k) =
  match read_string k with
  | Some (str, r) => Some (String c str, r)
  | None => None
  end.
Proof.
  destruct c as [[] [] [] [] [] [] [] []]; reflexivity.
Qed.

Lemma read_string_quote_to s k : read_string (quote_to s k) = Some (s, k).
Proof.
  induction s as [| c s IH]; [reflexivity |].
  cbn [quote_to]. now rewrite read_string_escape, IH.
Qed.

Lemma read_digits_string_of_uint d k :
  delimited k ->
  read_digits (NilEmpty.string_of_uint d ++ k) = (d, k).
Proof.
  intros Hk.
  induction d;
    try (match goal with
         | |- read_digits (NilEmpty.string_of_uint (?D ?d) ++ k) = _ =>
             transitivity
               (let (d', r) := read_digits (NilEmpty.string_of_uint d ++ k)
                in (D d', r));
             [reflexivity | rewrite IHd; reflexivity]
         end).
  destruct k as [| c k]; [reflexivity |].
  destruct Hk as [-> | [-> | ->]]; reflexivity.
Qed.

Lemma continues_number_delimited k :
  delimited k -> continues_number k = false.
Proof.
  destruct k as [| c k]; [reflexivity |].
  intros [-> | [-> | ->]]; reflexivity.
Qed.

Lemma unorm_to_uint n : Decimal.unorm (N.to_uint n) = N.to_uint n.
Proof.
  rewrite <- (DecimalN.Unsigned.of_to n) at 2.
  now rewrite DecimalN.Unsigned.to_of.
Qed.

Lemma read_natural_to_uint n k :
  delimited k ->
  read_natural (NilEmpty.string_of_uint (N.to_uint n) ++ k) = Some (n, k).
Proof.
  intros Hk. unfold read_natural.
  rewrite read_digits_string_of_uint by exact Hk.
  destruct (Decimal.uint_eq_dec _ _) as [_ | Hne].
  - now rewrite continues_number_delimited, DecimalN.Unsigned.of_to.
  - exfalso. apply Hne. symmetry. apply unorm_to_uint.
Qed.

(** The text of a number starts with a sign or a digit. *)
Lemma string_of_to_uint_head n k :
  exists c rest,
    NilEmpty.string_of_uint (N.to_uint n) ++ k = String c rest /\
    In c ["0"; "1"; "2"; "3"; "4"; "5"; "6"; "7"; "8"; "9"]%char.
Proof.
  pose proof (unorm_to_uint n) as Hn.
  destruct (N.to_uint n) eqn:E; try discriminate Hn;
    cbn [NilEmpty.string_of_uint append]; eexists _, _;
    (split; [reflexivity | simpl; tauto]).
Qed.

Lemma read_number_natural m k :
  delimited k ->
  read_number (NilEmpty.string_of_uint (N.to_uint m) ++ k)
  = Some (JNumber (Z.of_N m), k).
Proof.
  intros Hk.
  destruct (string_of_to_uint_head m k) as (c & rest & E & Hc).
  pose proof (read_natural_to_uint m k Hk) as Hr.
  rewrite E in *. unfold read_number.
  assert (Hm : c <> "-"%char).
  { simpl in Hc. intuition (subst; discriminate). }
  destruct c as [[] [] [] [] [] [] [] []]; try (exfalso; now apply Hm);
    rewrite Hr; reflexivity.
Qed.

Lemma read_number_number_to n k :
  delimited k -> read_number (number_to n k) = Some (JNumber n, k).
Proof.
  intros Hk. unfold number_to. destruct n as [| p | p].
  - apply (read_number_natural 0 k Hk).
  - apply (read_number_natural (N.pos p) k Hk).
  - change (Z.abs_N (Z.neg p)) with (N.pos p). unfold read_number.
    now rewrite read_natural_to_uint.
Qed.

Lemma print_to_head v k :
  exists c rest, print_to v k = String c rest /\ In c head_chars.
Proof.
  destruct v as [| [] | n | s | [| v0 vs] | [| [k0 v0] ms]];
    try (eexists _, _; split; [reflexivity | simpl; tauto]).
  unfold print_to, number_to. destruct n as [| p | p].
  - eexists _, _; split; [reflexivity | simpl; tauto].
  - destruct (string_of_to_uint_head (Z.abs_N (Z.pos p)) k)
      as (c & rest & E & Hc).
    exists c, rest. split; [exact E |].
    simpl in Hc |- *. tauto.
  - eexists _, _; split; [reflexivity | simpl; tauto].
Qed.

Lemma read_value_number fuel c rest :
  In c ["-"; "0"; "1"; "2"; "3"; "4"; "5"; "6"; "7"; "8"; "9"]%char ->
  read_value (S fuel) (String c rest) = read_number (String c rest).
Proof.
  intros H. simpl in H.
  repeat (destruct H as [<- | H]; [reflexivity |]). destruct H.
Qed.

Lemma read_value_string fuel rest :
  read_value (S fuel) (String dquote rest) =
  match read_string rest with
  | Some (str, r) => Some (JString str, r)
  | None => None
  end.
Proof. reflexivity. Qed.

Lemma read_value_array fuel c rest :
  In c head_chars ->
  read_value (S fuel) (String "[" (String c rest)) =
  match read_items fuel (String c rest) with
  | Some (vs, r) => Some (JArray vs, r)
  | None => None
  end.
Proof.
  intros H. unfold head_chars in H. simpl in H.
  repeat (destruct H as [<- | H]; [reflexivity |]). destruct H.
Qed.

Lemma read_value_object fuel rest :
  read_value (S fuel) (String "{" (String dquote rest)) =
  match read_members fuel (String dquote rest) with
  | Some (ms, r) => Some (JObject ms, r)
  | None => None
  end.
Proof. reflexivity. Qed.

Lemma read_items_eq fuel s :
  read_items (S fuel) s =
  match read_value fuel s with
  | Some (v, r) =>
      match skip_ws r with
      | String "," r' =>
          match read_items fuel r' with
          | Some (vs, r'') => Some (v :: vs, r'')
          | None => None
          end
      | String "]" r' => Some ([v], r')
      | _ => None
      end
  | None => None
  end.
Proof. reflexivity. Qed.

Lemma read_members_eq fuel rest :
  read_members (S fuel) (String dquote rest) =
  match read_string rest with
  | Some (key, r0) =>
      match skip_ws r0 with
      | String ":" r1 =>
          match read_value fuel r1 with
          | Some (v, r) =>
              match skip_ws r with
              | String "," r' =>
                  match read_members fuel r' with
                  | Some (ms, r'') => Some ((key, v) :: ms, r'')
                  | None => None
                  end
              | String "}" r' => Some ([(key, v)], r')
              | _ => None
              end
          | None => None
          end
      | _ => None
      end
  | None => None
  end.
Proof. reflexivity. Qed.

Lemma read_items_print v0 vs fuel k :
  reads_back v0 -> Forall reads_back vs ->
  weight (JArray (v0 :: vs)) <= S fuel ->
  read_items fuel (print_to v0 (print_items vs k)) = Some (v0 :: vs, k).
Proof.
  intros H0 Hvs. revert v0 H0 fuel.
  induction Hvs as [| v1 vs H1 Hvs IH]; intros v0 H0 fuel Hw;
    cbn [weight fold_right] in Hw;
    (destruct fuel as [| fuel]; [lia |]); rewrite read_items_eq.
  - unfold print_items. cbn [fold_right].
    rewrite H0 by (simpl; tauto || lia). reflexivity.
  - unfold print_items. cbn [fold_right]. fold (print_items vs k).
    rewrite H0 by (simpl; tauto || lia).
    change (skip_ws (String "," ?r)) with (String "," r). cbv iota beta.
    rewrite IH; [reflexivity | exact H1 |].
    cbn [weight fold_right]. lia.
Qed.

Lemma read_members_print k0 v0 ms fuel k :
  reads_back v0 -> Forall (fun m => reads_back (snd m)) ms ->
  weight (JObject ((k0, v0) :: ms)) <= S fuel ->
  read_members fuel
    (String dquote (quote_to k0 (String ":"
       (print_to v0 (print_members ms k)))))
  = Some ((k0, v0) :: ms, k).
Proof.
  intros H0 Hms. revert k0 v0 H0 fuel.
  induction Hms as [| [k1 v1] ms H1 Hms IH]; intros k0 v0 H0 fuel Hw;
    cbn [weight fold_right snd] in Hw;
    (destruct fuel as [| fuel]; [lia |]);
    rewrite read_members_eq, read_string_quote_to;
    change (skip_ws (String ":" ?r)) with (String ":" r); cbv iota beta.
  - unfold print_members. cbn [fold_right].
    rewrite H0 by (simpl; tauto || lia). reflexivity.
  - unfold print_members. cbn [fold_right fst snd]. fold (print_members ms k).
    rewrite H0 by (simpl; tauto || lia).
    change (skip_ws (String "," ?r)) with (String "," r). cbv iota beta.
    rewrite IH; [reflexivity | exact H1 |].
    cbn [weight fold_right snd]. lia.
Qed.

Lemma read_value_print_to v : reads_back v.
Proof.
  induction v as [| b | n | s | items IH | members IH]
    using JSON_nested_ind; intros fuel k Hw Hk;
    (destruct fuel as [| fuel]; [cbn [weight] in Hw; lia |]).
  - reflexivity.
  - destruct b; reflexivity.
  - cbn [print_to].
    assert (H : exists c rest, number_to n k = String c rest /\
              In c ["-"; "0"; "1"; "2"; "3"; "4"; "5"; "6"; "7"; "8"; "9"]%char).
    { unfold number_to. destruct n as [| p | p].
      - eexists _, _. split; [reflexivity | simpl; tauto].
      - destruct (string_of_to_uint_head (Z.abs_N (Z.pos p)) k)
          as (c & rest & E & Hc).
        exists c, rest. split; [exact E | now right].
      - eexists _, _. split; [reflexivity | simpl; tauto]. }
    destruct H as (c & rest & E & Hc).
    pose proof (read_number_number_to n k Hk) as Hr. rewrite E in *.
    now rewrite read_value_number.
  - cbn [print_to]. now rewrite read_value_string, read_string_quote_to.
  - destruct items as [| v0 vs]; [reflexivity |].
    inversion IH as [| ? ? H0 Hvs]; subst.
    change (print_to (JArray (v0 :: vs)) k)
      with (String "[" (print_to v0 (print_items vs k))).
    destruct (print_to_head v0 (print_items vs k)) as (c & rest & E & Hc).
    pose proof (read_items_print v0 vs fuel k H0 Hvs Hw) as Hr.
    rewrite E in *. now rewrite read_value_array, Hr.
  - destruct members as [| [k0 v0] ms]; [reflexivity |].
    inversion IH as [| ? ? H0 Hms]; subst.
    change (print_to (JObject ((k0, v0) :: ms)) k)
      with (String "{" (String dquote (quote_to k0 (String ":"
              (print_to v0 (print_members ms k)))))).
    now rewrite read_value_object, (read_members_print k0 v0 ms fuel k H0 Hms Hw).
Qed.

Lemma length_append s k :
  String.length (s ++ k) = String.length s + String.length k.
Proof. induction s as [| c s IH]; simpl; [reflexivity | now rewrite IH]. Qed.

Lemma escape_length c k : String.length k < String.length (escape c k).
Proof.
  unfold escape.
  repeat match goal with
         | |- context [if ?b then _ else _] => destruct b
         end; simpl; lia.
Qed.

Lemma quote_to_length s k : String.length k < String.length (quote_to s k).
Proof.
  induction s as [| c s IH]; simpl; [lia |].
  pose proof (escape_length c (quote_to s k)). lia.
Qed.

Lemma number_to_length n k : String.length k < String.length (number_to n k).
Proof.
  assert (H : forall m, String.length k <
                String.length (NilEmpty.string_of_uint (N.to_uint m) ++ k)).
  { intros m. destruct (string_of_to_uint_head m "") as (c & rest & E & _).
    rewrite length_append.
    assert (E' : String.length (NilEmpty.string_of_uint (N.to_uint m) ++ "")
                 = S (String.length rest)) by now rewrite E.
    rewrite length_append in E'. simpl in E'. lia. }
  unfold number_to. destruct n as [| p | p].
  - apply (H 0%N).
  - apply (H (N.pos p)).
  - cbn [String.length]. specialize (H (N.pos p)).
    change (Z.abs_N (Z.neg p)) with (N.pos p). lia.
Qed.

Lemma weight_length v k :
  weight v + String.length k <= String.length (print_to v k).
Proof.
  revert k.
  induction v as [| b | n | s | items IH | members IH]
    using JSON_nested_ind; intros k.
  - simpl. lia.
  - destruct b; simpl; lia.
  - cbn [print_to weight]. pose proof (number_to_length n k). lia.
  - cbn [print_to weight String.length].
    pose proof (quote_to_length s k). lia.
  - destruct items as [| v0 vs]; [simpl; lia |].
    inversion IH as [| ? ? H0 Hvs]; subst.
    change (print_to (JArray (v0 :: vs)) k)
      with (String "[" (print_to v0 (print_items vs k))).
    assert (Hi : fold_right (fun v acc => S (weight v + acc)) 0 vs
                 + S (String.length k)
                 <= String.length (print_items vs k)).
    { clear H0 IH. induction Hvs as [| v1 vs H1 Hvs IHvs]; [simpl; lia |].
      unfold print_items. cbn [fold_right String.length].
      fold (print_items vs k).
      specialize (H1 (print_items vs k)). lia. }
    specialize (H0 (print_items vs k)).
    cbn [weight fold_right String.length]. lia.
  - destruct members as [| [k0 v0] ms]; [simpl; lia |].
    inversion IH as [| ? ? H0 Hms]; subst.
    change (print_to (JObject ((k0, v0) :: ms)) k)
      with (String "{" (String dquote (quote_to k0 (String ":"
              (print_to v0 (print_members ms k)))))).
    assert (Hi : fold_right (fun m acc => S (weight (snd m) + acc)) 0 ms
                 + S (String.length k)
                 <= String.length (print_members ms k)).
    { clear H0 IH. induction Hms as [| [k1 v1] ms H1 Hms IHms]; [simpl; lia |].
      unfold print_members. cbn [fold_right String.length fst snd].
      fold (print_members ms k).
      specialize (H1 (print_members ms k)). cbn [snd] in H1.
      pose proof (quote_to_length k1
                    (String ":" (print_to v1 (print_members ms k)))) as Hq.
      cbn [String.length] in Hq. lia. }
    specialize (H0 (print_members ms k)). cbn [snd] in H0.
    pose proof (quote_to_length k0
                  (String ":" (print_to v0 (print_members ms k)))) as Hq.
    cbn [String.length] in Hq.
    cbn [weight fold_right String.length snd]. lia.
Qed.

(** The codec is one: parsing the text of a value gives the value. *)
Lemma json_parse_stringify v : json_parse (json_stringify v) = Returns v.
Proof.
  unfold json_parse, json_stringify.
  pose proof (weight_length v "") as Hw. simpl in Hw.
  rewrite read_value_print_to; [reflexivity | lia | exact I].
Qed.

Lemma json_stringify_truthy v : truthy (json_stringify v) = true.
Proof.
  unfold json_stringify.
  destruct (print_to_head v "") as (c & rest & -> & _). reflexivity.
Qed.

(** * Persistence *)

(** ** The records and their JavaScript objects *)

Lemma all_some_map {A B} (enc : A -> B) (dec : B -> option A) l :
  (forall a, dec (enc a) = Some a) ->
  all_some (map dec (map enc l)) = Some l.
Proof.
  intros H. induction l as [| a l IH]; [reflexivity |].
  cbn [map all_some]. now rewrite H, IH.
Qed.

Lemma event_of_value e : event_of (event_value e) = Some e.
Proof. now destruct e. Qed.

Lemma log_of_value l : log_of (log_value l) = Some l.
Proof. now destruct l. Qed.

Lemma sensor_of_value s : sensor_of (sensor_value s) = Some s.
Proof.
  destruct s as [i n ty st le h].
  transitivity
    (match time_of (Some (match le with
                          | Some t => JString t
                          | None => JNull
                          end)),
           all_some (map event_of (map event_value h)) with
     | Some le', Some h' => Some (mkSensor i n ty st le' h')
     | _, _ => None
     end); [reflexivity |].
  rewrite (all_some_map _ _ _ event_of_value). now destruct le.
Qed.

Lemma typed_snapshot st b1 sel b2 b3 :
  typed (mkMounted
           (mkLoaded (Some (JArray (map sensor_value (sensors st))))
                     (Some (JBool (armed st)))
                     (Some (JArray (map log_value (logs st)))))
           b1 sel b2 b3)
  = Some (mkState (sensors st) (armed st) (logs st) b1 sel b2 b3).
Proof.
  unfold typed. cbn [m_cells l_sensors l_armed l_logs sensors_of logs_of
                     flag_of m_showModal m_selectedSensor m_simulate m_alarmOn].
  rewrite (all_some_map _ _ _ sensor_of_value).
  now rewrite (all_some_map _ _ _ log_of_value).
Qed.

Lemma getItem_setItem ls key value ls' :
  setItem ls key value = Returns ls' -> getItem ls' key = Returns (Some value).
Proof.
  destruct ls as [| items]; [discriminate |].
  intros [= <-]. simpl. now rewrite String.eqb_refl.
Qed.

Lemma truthy_spec s : truthy s = true <-> s <> "".
Proof.
  unfold truthy. destruct (String.eqb_spec s ""); simpl; split;
    congruence.
Qed.

(** ** Loading *)

(** C7, as the code has it.  Loading returns in every case.  It returns
    the documented defaults (the five sensors in their initial states,
    not armed, an empty log) when the storage cannot be read, when the key
    is missing or holds the empty text, when the text is not JSON, and
    when it is the JSON [null].  Any other text that parses is used as it
    is: each cell receives the property of its name of the parsed value,
    [undefined] when the value has none, without a check. *)
Theorem load_falls_back JSON_parse ls :
  (getItem ls STORAGE_KEY = Throws \/
   getItem ls STORAGE_KEY = Returns None \/
   getItem ls STORAGE_KEY = Returns (Some "") \/
   (exists saved, getItem ls STORAGE_KEY = Returns (Some saved) /\
                  (JSON_parse saved = Throws \/
                   JSON_parse saved = Returns JNull)) ->
   load JSON_parse ls = defaults) /\
  (forall saved v,
     getItem ls STORAGE_KEY = Returns (Some saved) -> saved <> "" ->
     JSON_parse saved = Returns v -> v <> JNull ->
     getProp v "sensors" = Returns (l_sensors (load JSON_parse ls)) /\
     getProp v "armed" = Returns (l_armed (load JSON_parse ls)) /\
     getProp v "logs" = Returns (l_logs (load JSON_parse ls))).
Proof.
  split.
  - intros H. unfold load, defaults, savedCell.
    destruct H as [-> | [-> | [-> | (saved & -> & [-> | ->])]]];
      try reflexivity; now destruct (truthy saved).
  - intros saved v Hg Hne Hp Hv. unfold load, savedCell. simpl.
    rewrite Hg, (proj2 (truthy_spec saved) Hne), Hp.
    destruct v; try contradiction; repeat split; reflexivity.
Qed.

Lemma load_falls_back_witness :
  load json_parse (Items []) = defaults /\
  load json_parse (Items [(STORAGE_KEY, "not json")]) = defaults.
Proof.
  split.
  - apply (load_falls_back json_parse (Items [])). right. now left.
  - apply (load_falls_back json_parse (Items [(STORAGE_KEY, "not json")])).
    right. right. right. exists "not json". split; [reflexivity |].
    left. reflexivity.
Defined.

(** C7 as it is stated fails for a stored text that parses but holds no
    snapshot: with the text of the empty object under the key, loading
    leaves the three cells [undefined] instead of returning the
    defaults, and the cells hold no sensors, flag and log. *)
Lemma load_of_empty_object :
  let ls := Items [(STORAGE_KEY, "{}")] in
  json_parse "{}" = Returns (JObject []) /\
  load json_parse ls = mkLoaded None None None /\
  load json_parse ls <> defaults /\
  typed (mount json_parse ls) = None.
Proof.
  split; [reflexivity |]. split; [reflexivity |].
  split; [discriminate | reflexivity].
Qed.

(** ** Saving, then loading *)

Lemma load_snapshot JSON_parse st ls text :
  getItem ls STORAGE_KEY = Returns (Some text) -> text <> "" ->
  JSON_parse text = Returns (snapshot st) ->
  load JSON_parse ls =
    mkLoaded (Some (JArray (map sensor_value (sensors st))))
             (Some (JBool (armed st)))
             (Some (JArray (map log_value (logs st)))).
Proof.
  intros Hg Hne Hp. unfold load, savedCell.
  rewrite Hg, (proj2 (truthy_spec _) Hne), Hp. reflexivity.
Qed.

(** C8.  When the write succeeds and the platform's parser gives back the
    value whose (non-empty) text was written, loading from the written
    storage gives the saved sensors, armed flag and log: the cells hold
    their JavaScript values, and the mounted component is the one with
    these sensors, flag and log. *)
Theorem save_then_load JSON_parse JSON_stringify st ls ls' :
  JSON_parse (JSON_stringify (snapshot st)) = Returns (snapshot st) ->
  JSON_stringify (snapshot st) <> "" ->
  persist JSON_stringify st ls = Returns ls' ->
  load JSON_parse ls' =
    mkLoaded (Some (JArray (map sensor_value (sensors st))))
             (Some (JBool (armed st)))
             (Some (JArray (map log_value (logs st)))) /\
  typed (mount JSON_parse ls') =
    Some (mkState (sensors st) (armed st) (logs st) false None true false).
Proof.
  intros Hlaw Hne Hw. unfold persist in Hw.
  apply getItem_setItem in Hw.
  pose proof (load_snapshot JSON_parse st ls' _ Hw Hne Hlaw) as Hl.
  split; [exact Hl |].
  unfold mount. rewrite Hl. apply typed_snapshot.
Qed.

(** With the codec of this file for the platform's pair, the parser's
    answer is no assumption: every saved state is read back. *)
Lemma save_then_load_codec st ls ls' :
  persist json_stringify st ls = Returns ls' ->
  typed (mount json_parse ls') =
    Some (mkState (sensors st) (armed st) (logs st) false None true false).
Proof.
  intros Hw. unfold persist in Hw. apply getItem_setItem in Hw.
  unfold mount.
  rewrite (load_snapshot json_parse st ls' _ Hw
             (proj1 (truthy_spec _) (json_stringify_truthy _))
             (json_parse_stringify _)).
  apply typed_snapshot.
Qed.

Lemma save_then_load_witness :
  let ls' := Items [(STORAGE_KEY, json_stringify (snapshot smoke_alarm_state))] in
  typed (mount json_parse ls') =
    Some (mkState (sensors smoke_alarm_state) true (logs smoke_alarm_state)
            false None true false).
Proof.
  apply (save_then_load json_parse json_stringify smoke_alarm_state
           (Items [])).
  - apply json_parse_stringify.
  - apply truthy_spec, json_stringify_truthy.
  - reflexivity.
Defined.

(** ** The alarm across a restart *)

(** C10.  The saved object has no [alarmOn] property and its text does
    not depend on the alarm; a mounted component starts with the alarm
    off, whatever the storage holds, so a ringing alarm does not survive
    a restart. *)
Theorem alarm_not_persisted JSON_parse JSON_stringify st ls :
  getProp (snapshot st) "alarmOn" = Returns None /\
  persist JSON_stringify st ls =
    persist JSON_stringify
      (mkState (sensors st) (armed st) (logs st) (showModal st)
         (selectedSensor st) (simulate st) (negb (alarmOn st))) ls /\
  m_alarmOn (mount JSON_parse ls) = false /\
  (forall st0, typed (mount JSON_parse ls) = Some st0 -> alarmOn st0 = false).
Proof.
  split; [reflexivity |]. split; [reflexivity |]. split; [reflexivity |].
  intros st0 H. unfold typed in H.
  destruct (sensors_of (l_sensors (m_cells (mount JSON_parse ls))));
    [| discriminate].
  destruct (flag_of (l_armed (m_cells (mount JSON_parse ls))));
    [| discriminate].
  destruct (logs_of (l_logs (m_cells (mount JSON_parse ls))));
    [| discriminate].
  now injection H as <-.
Qed.

Lemma alarm_not_persisted_witness :
  alarmOn demo_state = true /\
  exists ls' st0,
    persist json_stringify demo_state (Items []) = Returns ls' /\
    typed (mount json_parse ls') = Some st0 /\
    alarmOn st0 = false.
Proof.
  split; [reflexivity |].
  exists (Items [(STORAGE_KEY, json_stringify (snapshot demo_state))]).
  exists (mkState initialSensors true [] false None true false).
  split; [reflexivity |].
  assert (H : typed (mount json_parse
                (Items [(STORAGE_KEY, json_stringify (snapshot demo_state))]))
              = Some (mkState initialSensors true [] false None true false))
    by reflexivity.
  split; [exact H |].
  exact (proj2 (proj2 (proj2 (alarm_not_persisted json_parse json_stringify
           demo_state
           (Items [(STORAGE_KEY, json_stringify (snapshot demo_state))]))))
           _ H).
Defined.

(** * Further properties of the handlers *)

(** ** The registry is fixed *)

Lemma sensorEvent_nameplate r now sensorId forcedState s c :
  nameplate (fst (sensorEvent r now sensorId forcedState s c)) = nameplate s.
Proof.
  unfold sensorEvent.
  destruct (negb (id s =? sensorId)%Z); [reflexivity |].
  destruct (r_alarmOn r); [reflexivity |].
  destruct (r_armed r && abnormal (nextState forcedState s)); reflexivity.
Qed.

Lemma mapM_sensorEvent_nameplate r now sensorId forcedState l c :
  map nameplate (fst (mapM (sensorEvent r now sensorId forcedState) l c))
  = map nameplate l.
Proof.
  revert c. induction l as [| s l IH]; intros c; [reflexivity |].
  simpl. unfold bind, ret.
  pose proof (sensorEvent_nameplate r now sensorId forcedState s c) as Hs.
  destruct (sensorEvent r now sensorId forcedState s c) as [s' c1].
  specialize (IH c1).
  destruct (mapM (sensorEvent r now sensorId forcedState) l c1) as [l' c2].
  simpl in *. now rewrite Hs, IH.
Qed.

Lemma simulateSensorEvent_nameplate build r now sensorId forcedState st :
  map nameplate
    (sensors (simulateSensorEvent build r now sensorId forcedState st))
  = map nameplate (sensors st).
Proof.
  rewrite simulateSensorEvent_runs. cbv zeta. cbn [sensors].
  apply mapM_sensorEvent_nameplate.
Qed.

Lemma handle_nameplate build r now cmd st :
  map nameplate (sensors (handle build r now cmd st))
  = map nameplate (sensors st).
Proof.
  destruct cmd; cbn [handle]; try reflexivity.
  - unfold armButton. now destruct (r_armed r).
  - apply simulateSensorEvent_nameplate.
  - apply simulateSensorEvent_nameplate.
  - rewrite performSensorAck_build.
    unfold performSensorAck, run, setSensors, ret. simpl.
    rewrite map_map. apply map_ext. intros s. unfold ackSensor.
    now destruct (id s =? sensorId)%Z.
Qed.

(** X1.  No sequence of operations adds, removes, reorders or renames a
    sensor: the ids, names and types of the registry stay what they
    were, and ids that were unique stay unique. *)
Theorem registry_is_fixed build st st' :
  steps build st st' ->
  map nameplate (sensors st') = map nameplate (sensors st) /\
  length (sensors st') = length (sensors st) /\
  (NoDup (map id (sensors st)) -> NoDup (map id (sensors st'))).
Proof.
  intros H.
  assert (E : map nameplate (sensors st') = map nameplate (sensors st)).
  { induction H as [| st r now cmd st' _ IH]; [reflexivity |].
    now rewrite IH, handle_nameplate. }
  split; [exact E |]. split.
  - now rewrite <- (length_map nameplate), E, length_map.
  - assert (Eid : forall l, map id l = map (fun t => fst (fst t))
                                         (map nameplate l)).
    { intros l. rewrite map_map. reflexivity. }
    now rewrite (Eid (sensors st')), E, <- Eid.
Qed.

Lemma registry_is_fixed_witness :
  map name
    (sensors (handle Production (render armed_state) "t2" (PerformSensorAck 1)
                (handle Production (render armed_state) "t1"
                   (SimulateSensorEvent 1 (Some "alarm")) armed_state)))
  = ["Front Door"; "Back Window"; "Living Room Motion"; "Garage Camera";
     "Kitchen Smoke"].
Proof.
  destruct (registry_is_fixed Production armed_state
              (handle Production (render armed_state) "t2" (PerformSensorAck 1)
                 (handle Production (render armed_state) "t1"
                    (SimulateSensorEvent 1 (Some "alarm")) armed_state)))
    as (E & _ & _).
  - eapply steps_next. eapply steps_next. apply steps_done.
  - apply (f_equal (map (fun t => snd (fst t)))) in E.
    rewrite !map_map in E. exact E.
Defined.

(** ** The log keeps the most recent entries *)

(** X2.  After any series of [pushLog] calls on a log within its cap, the
    log is the 200 most recent entries of all that was pushed on top of
    what it held, the latest first; nothing is merged or dropped but the
    oldest. *)
Theorem log_is_most_recent calls prev :
  length prev <= 200 ->
  pushAll calls prev =
  firstn 200
    (rev (map (fun call => mkLog (snd (fst call))
                             (or_else (snd call) (fst (fst call)))) calls)
     ++ prev)%list.
Proof.
  revert prev. induction calls as [| call calls IH]; intros prev Hp.
  - simpl. symmetry. now apply firstn_all2.
  - unfold pushAll. cbn [fold_left]. fold (pushAll calls).
    rewrite IH by apply firstn_le_length.
    unfold pushLog_upd. cbn [map rev].
    rewrite firstn_app_firstn by lia.
    now rewrite <- app_assoc.
Qed.

Lemma log_is_most_recent_witness :
  pushAll [("t1", "System armed", Some "t1"); ("t2", "Cleared logs", None);
           ("t3", "Cleared logs", None)]
          [mkLog "Front Door — open" "t0"]
  = [mkLog "Cleared logs" "t3"; mkLog "Cleared logs" "t2";
     mkLog "System armed" "t1"; mkLog "Front Door — open" "t0"].
Proof.
  rewrite (log_is_most_recent
             [("t1", "System armed", Some "t1"); ("t2", "Cleared logs", None);
              ("t3", "Cleared logs", None)]
             [mkLog "Front Door — open" "t0"]).
  - reflexivity.
  - simpl. lia.
Defined.

(** ** What an operation does to the log *)

Lemma sensors_split_by_id (l : list Sensor) sensorId :
  (forall s, In s l -> id s <> sensorId) \/
  (exists s, In s l /\ id s = sensorId).
Proof.
  induction l as [| x l [IH | (s & Hs & Hid)]].
  - left. intros s [].
  - destruct (Z.eq_dec (id x) sensorId) as [E | N].
    + right. exists x. split; [now left | exact E].
    + left. intros s [<- | Hs]; [exact N | now apply IH].
  - right. exists s. split; [now right | exact Hid].
Qed.

Lemma simulateSensorEvent_log build r now sensorId forcedState st :
  NoDup (map id (sensors st)) -> length (logs st) <= 200 ->
  exists new,
    logs (simulateSensorEvent build r now sensorId forcedState st) =
      firstn 200 (new ++ logs st)%list /\
    Forall (fun e => time e = now) new /\
    length new <= match build with Production => 2 | StrictDevelopment => 4 end.
Proof.
  intros Hnd Hl.
  destruct (sensors_split_by_id (sensors st) sensorId) as [Hn | (s & Hs & Hid)].
  - exists []. rewrite simulateSensorEvent_runs. cbv zeta.
    split; [| split; [constructor | destruct build; simpl; lia]].
    destruct build; rewrite !mapM_sensorEvent_none by exact Hn;
      symmetry; now apply firstn_all2.
  - destruct (simulateSensorEvent_unique build r now sensorId forcedState st s
                Hnd Hs Hid) as (l1 & l2 & _ & _ & E).
    rewrite E. subst sensorId. cbv zeta. cbn [logs].
    destruct (r_alarmOn r) eqn:Hon.
    + exists (match build with
              | Production => [mkLog (silence_message s) now]
              | StrictDevelopment =>
                  [mkLog (silence_message s) now;
                   mkLog (silence_message s) now]
              end).
      destruct build; rewrite !sensorEvent_silence by exact Hon;
        cbn [snd c_logs cells];
        (split; [| split; [repeat constructor | simpl; lia]]).
      * reflexivity.
      * apply firstn_cons_firstn.
    + destruct (r_armed r && abnormal (nextState forcedState s)) eqn:Hc.
      * exists (match build with
                | Production =>
                    [mkLog (alarm_message s) now;
                     mkLog (change_message s (nextState forcedState s)) now]
                | StrictDevelopment =>
                    [mkLog (alarm_message s) now;
                     mkLog (change_message s (nextState forcedState s)) now;
                     mkLog (alarm_message s) now;
                     mkLog (change_message s (nextState forcedState s)) now]
                end).
        destruct build; rewrite !sensorEvent_transition by exact Hon;
          cbv zeta; rewrite Hc; cbn [snd c_logs cells];
          (split; [| split; [repeat constructor | simpl; lia]]).
        -- apply firstn_cons_firstn.
        -- rewrite !firstn_cons_firstn.
           apply (firstn_app_firstn [_; _] _ 200 200). simpl. lia.
      * exists (match build with
                | Production =>
                    [mkLog (change_message s (nextState forcedState s)) now]
                | StrictDevelopment =>
                    [mkLog (change_message s (nextState forcedState s)) now;
                     mkLog (change_message s (nextState forcedState s)) now]
                end).
        destruct build; rewrite !sensorEvent_transition by exact Hon;
          cbv zeta; rewrite Hc; cbn [snd c_logs cells];
          (split; [| split; [repeat constructor | simpl; lia]]).
        -- reflexivity.
        -- apply firstn_cons_firstn.
Qed.

Lemma run_pushLog_log now message t st :
  or_else t now = now ->
  exists new,
    logs (run (pushLog now message t) st) =
      firstn 200 (new ++ logs st)%list /\
    Forall (fun e => time e = now) new /\ length new <= 2.
Proof.
  intros Ht. exists [mkLog message now]. split.
  - unfold run, pushLog, setLogs, pushLog_upd. simpl. now rewrite Ht.
  - split; [repeat constructor | simpl; lia].
Qed.

Lemma or_else_now now : or_else (Some now) now = now.
Proof. simpl. now destruct (truthy now). Qed.

(** X3.  With unique ids and a log within its cap, every operation but
    Clear Logs leaves the log as it was under at most two new entries
    (four in a development build under [React.StrictMode], where a
    sensor event writes its entries twice), stamped with the clock
    reading of the operation: no entry is rewritten, reordered or
    removed, except the oldest ones beyond the 200th. *)
Theorem log_is_append_only build r now cmd st :
  NoDup (map id (sensors st)) -> length (logs st) <= 200 ->
  cmd <> ClearLogsButton ->
  exists new,
    logs (handle build r now cmd st) = firstn 200 (new ++ logs st)%list /\
    Forall (fun e => time e = now) new /\
    length new <= match build with Production => 2 | StrictDevelopment => 4 end.
Proof.
  intros Hnd Hl Hc.
  assert (Hpush : forall message t st0,
            logs st0 = logs st -> or_else t now = now ->
            exists new,
              logs (run (pushLog now message t) st0) =
                firstn 200 (new ++ logs st)%list /\
              Forall (fun e => time e = now) new /\
              length new <=
                match build with Production => 2 | StrictDevelopment => 4 end).
  { intros message t st0 <- Ht.
    destruct (run_pushLog_log now message t st0 Ht) as (new & H1 & H2 & H3).
    exists new. split; [exact H1 |]. split; [exact H2 |].
    destruct build; lia. }
  destruct cmd; cbn [handle].
  - unfold armButton, disarmSystem, armSystem.
    destruct (r_armed r); apply Hpush; try reflexivity; apply or_else_now.
  - apply Hpush; reflexivity.
  - contradiction.
  - apply Hpush; reflexivity.
  - exists []. split; [symmetry; now apply firstn_all2 |].
    split; [constructor | destruct build; simpl; lia].
  - now apply simulateSensorEvent_log.
  - apply Hpush; reflexivity.
  - now apply simulateSensorEvent_log.
  - exists [mkLog ("Acknowledged " ++ selected_name r) now]. split.
    + rewrite performSensorAck_build.
      unfold performSensorAck, run, setSensors, pushLog, setLogs, pushLog_upd,
        ret. simpl. now destruct (truthy now).
    + split; [repeat constructor | destruct build; simpl; lia].
  - apply Hpush; [reflexivity | apply or_else_now].
  - apply Hpush; [reflexivity | apply or_else_now].
Qed.

Lemma log_is_append_only_witness :
  exists new,
    logs (handle StrictDevelopment (render armed_state) "t"
            (SimulateSensorEvent 4 None) armed_state)
    = firstn 200 (new ++ logs armed_state)%list /\
    Forall (fun e => time e = "t") new /\ length new <= 4.
Proof.
  apply (log_is_append_only StrictDevelopment (render armed_state) "t"
           (SimulateSensorEvent 4 None) armed_state).
  - repeat constructor; simpl; intuition discriminate.
  - simpl. lia.
  - discriminate.
Defined.

(** ** What starts and what stops the alarm *)

Lemma mapM_sensorEvent_alarm r now sensorId forcedState l c :
  c_alarmOn (snd (mapM (sensorEvent r now sensorId forcedState) l c)) =
  if r_alarmOn r
  then if existsb (fun s => (id s =? sensorId)%Z) l then false
       else c_alarmOn c
  else c_alarmOn c ||
       (r_armed r &&
        existsb (fun s => (id s =? sensorId)%Z &&
                          abnormal (nextState forcedState s)) l).
Proof.
  revert c. induction l as [| s l IH]; intros c.
  - simpl. destruct (r_alarmOn r); [reflexivity |].
    now rewrite andb_false_r, orb_false_r.
  - cbn [mapM existsb]. unfold bind at 1.
    destruct (Z.eqb_spec (id s) sensorId) as [<- | Hne].
    + destruct (r_alarmOn r) eqn:Hon.
      * rewrite sensorEvent_silence by exact Hon. unfold bind, ret.
        specialize (IH (mkCells false
                          (firstn 200 (mkLog (silence_message s) now
                                         :: c_logs c)))).
        destruct (mapM _ l _) as [l' c']. simpl in *. rewrite IH.
        now destruct (existsb _ l).
      * rewrite sensorEvent_transition by exact Hon. cbv zeta.
        unfold bind, ret.
        match goal with
        | |- context [mapM _ l ?c1] => specialize (IH c1);
            destruct (mapM (sensorEvent r now (id s) forcedState) l c1)
              as [l' c']
        end.
        simpl in *. rewrite IH.
        destruct (r_armed r), (abnormal (nextState forcedState s));
          simpl; try reflexivity; now rewrite ?orb_true_r.
    + rewrite sensorEvent_other by exact Hne. unfold bind, ret.
      specialize (IH c). destruct (mapM _ l c) as [l' c'].
      simpl in *. exact IH.
Qed.

Lemma simulateSensorEvent_alarm build r now sensorId forcedState st :
  alarmOn (simulateSensorEvent build r now sensorId forcedState st) =
  if r_alarmOn r
  then if existsb (fun s => (id s =? sensorId)%Z) (sensors st) then false
       else alarmOn st
  else alarmOn st ||
       (r_armed r &&
        existsb (fun s => (id s =? sensorId)%Z &&
                          abnormal (nextState forcedState s)) (sensors st)).
Proof.
  rewrite simulateSensorEvent_runs. cbv zeta. cbn [alarmOn].
  destruct build; rewrite !mapM_sensorEvent_alarm; cbn [cells c_alarmOn].
  - reflexivity.
  - destruct (r_alarmOn r).
    + now destruct (existsb _ (sensors st)).
    + now rewrite <- orb_assoc, orb_diag.
Qed.

Lemma simulateSensorEvent_starts build r now sensorId forcedState st :
  alarmOn st = false ->
  alarmOn (simulateSensorEvent build r now sensorId forcedState st) = true ->
  r_armed r = true /\ r_alarmOn r = false /\
  exists s, In s (sensors st) /\ id s = sensorId /\
            In (nextState forcedState s) ["open"; "motion"; "alarm"; "alert"].
Proof.
  intros Hoff. rewrite simulateSensorEvent_alarm, Hoff.
  destruct (r_alarmOn r).
  - now destruct (existsb _ (sensors st)).
  - simpl. intros H. apply andb_true_iff in H as [Ha He].
    split; [exact Ha |]. split; [reflexivity |].
    apply existsb_exists in He as (s & Hs & Hc).
    apply andb_true_iff in Hc as [Hid Hab].
    exists s. split; [exact Hs |]. split; [now apply Z.eqb_eq |].
    now apply abnormal_spec.
Qed.

Lemma simulateSensorEvent_stops build r now sensorId forcedState st :
  alarmOn st = true ->
  alarmOn (simulateSensorEvent build r now sensorId forcedState st) = false ->
  r_alarmOn r = true /\ exists s, In s (sensors st) /\ id s = sensorId.
Proof.
  intros Hon. rewrite simulateSensorEvent_alarm, Hon.
  destruct (r_alarmOn r); [| discriminate].
  destruct (existsb _ (sensors st)) eqn:He; [| discriminate].
  intros _. split; [reflexivity |].
  apply existsb_exists in He as (s & Hs & Hid).
  exists s. split; [exact Hs | now apply Z.eqb_eq].
Qed.

(** X4.  The alarm goes from off to on by two ways only: the Sound Alarm
    checkbox of a render that shows it off, and a sensor event whose
    handler holds [armed] true and [alarmOn] false and that moves a
    registered sensor to open, motion, alarm or alert.  No other
    operation starts it: arming does not, whatever the sensors' states
    are, nor does an acknowledgement, a check or a disarmed event. *)
Theorem alarm_starts_only_by build r now cmd st :
  alarmOn st = false -> alarmOn (handle build r now cmd st) = true ->
  (cmd = SoundAlarmCheckbox /\ r_alarmOn r = false) \/
  (r_armed r = true /\ r_alarmOn r = false /\
   exists sensorId forcedState s,
     (cmd = SimulateSensorEvent sensorId forcedState \/
      exists sensor, cmd = QuickToggle sensor /\ id sensor = sensorId /\
                     forcedState = None) /\
     In s (sensors st) /\ id s = sensorId /\
     In (nextState forcedState s) ["open"; "motion"; "alarm"; "alert"]).
Proof.
  intros Hoff Hon. destruct cmd; cbn [handle] in Hon.
  - unfold armButton in Hon. destruct (r_armed r); simpl in Hon; congruence.
  - simpl in Hon. congruence.
  - simpl in Hon. congruence.
  - left. split; [reflexivity |]. simpl in Hon. now destruct (r_alarmOn r).
  - simpl in Hon. congruence.
  - right. unfold quickToggle in Hon.
    destruct (simulateSensorEvent_starts build _ _ _ _ _ Hoff Hon)
      as (Ha & Hr & s & Hs & Hid & Hab).
    split; [exact Ha |]. split; [exact Hr |].
    exists (id sensor), None, s. split; [| now repeat split].
    right. exists sensor. now repeat split.
  - simpl in Hon. congruence.
  - right.
    destruct (simulateSensorEvent_starts build _ _ _ _ _ Hoff Hon)
      as (Ha & Hr & s & Hs & Hid & Hab).
    split; [exact Ha |]. split; [exact Hr |].
    exists sensorId, forcedState, s. split; [now left | now repeat split].
  - simpl in Hon. congruence.
  - simpl in Hon. congruence.
  - simpl in Hon. congruence.
Qed.

Lemma alarm_starts_only_by_witness :
  (SimulateSensorEvent 1 None = SoundAlarmCheckbox /\
   r_alarmOn (render armed_state) = false) \/
  (r_armed (render armed_state) = true /\
   r_alarmOn (render armed_state) = false /\
   exists sensorId forcedState s,
     (SimulateSensorEvent 1 None = SimulateSensorEvent sensorId forcedState \/
      exists sensor, SimulateSensorEvent 1 None = QuickToggle sensor /\
                     id sensor = sensorId /\ forcedState = None) /\
     In s (sensors armed_state) /\ id s = sensorId /\
     In (nextState forcedState s) ["open"; "motion"; "alarm"; "alert"]).
Proof.
  apply (alarm_starts_only_by Production (render armed_state) "t"
           (SimulateSensorEvent 1 None) armed_state); reflexivity.
Defined.

(** X5.  The alarm goes from on to off by these ways only: the Sound
    Alarm checkbox of a render that shows it on, a disarm (the arm button
    of a render that shows the system armed), an acknowledgement, and a
    sensor event on a registered sensor whose handler holds [alarmOn]
    true.  Checking a sensor, clearing the log or toggling the simulation
    never silences it. *)
Theorem alarm_stops_only_by build r now cmd st :
  alarmOn st = true -> alarmOn (handle build r now cmd st) = false ->
  (cmd = SoundAlarmCheckbox /\ r_alarmOn r = true) \/
  (cmd = ArmButton /\ r_armed r = true) \/
  cmd = DisarmSystem \/
  (exists sensorId, cmd = PerformSensorAck sensorId) \/
  (r_alarmOn r = true /\
   exists sensorId s,
     (( exists forcedState, cmd = SimulateSensorEvent sensorId forcedState) \/
      exists sensor, cmd = QuickToggle sensor /\ id sensor = sensorId) /\
     In s (sensors st) /\ id s = sensorId).
Proof.
  intros Hon Hoff. destruct cmd; cbn [handle] in Hoff.
  - right. left. split; [reflexivity |]. unfold armButton in Hoff.
    destruct (r_armed r); [reflexivity | simpl in Hoff; congruence].
  - simpl in Hoff. congruence.
  - simpl in Hoff. congruence.
  - left. split; [reflexivity |]. simpl in Hoff.
    destruct (r_alarmOn r); [reflexivity | discriminate].
  - simpl in Hoff. congruence.
  - do 4 right. unfold quickToggle in Hoff.
    destruct (simulateSensorEvent_stops build _ _ _ _ _ Hon Hoff)
      as (Hr & s & Hs & Hid).
    split; [exact Hr |]. exists (id sensor), s.
    split; [| now split]. right. now exists sensor.
  - simpl in Hoff. congruence.
  - do 4 right.
    destruct (simulateSensorEvent_stops build _ _ _ _ _ Hon Hoff)
      as (Hr & s & Hs & Hid).
    split; [exact Hr |]. exists sensorId, s.
    split; [| now split]. left. now exists forcedState.
  - do 3 right. left. now exists sensorId.
  - simpl in Hoff. congruence.
  - right. right. now left.
Qed.

Lemma alarm_stops_only_by_witness :
  (QuickToggle (mkSensor 2 "Back Window" "window" "closed" None [])
     = SoundAlarmCheckbox /\ r_alarmOn (render demo_state) = true) \/
  (QuickToggle (mkSensor 2 "Back Window" "window" "closed" None [])
     = ArmButton /\ r_armed (render demo_state) = true) \/
  QuickToggle (mkSensor 2 "Back Window" "window" "closed" None [])
    = DisarmSystem \/
  (exists sensorId,
     QuickToggle (mkSensor 2 "Back Window" "window" "closed" None [])
       = PerformSensorAck sensorId) \/
  (r_alarmOn (render demo_state) = true /\
   exists sensorId s,
     ((exists forcedState,
         QuickToggle (mkSensor 2 "Back Window" "window" "closed" None [])
           = SimulateSensorEvent sensorId forcedState) \/
      exists sensor,
        QuickToggle (mkSensor 2 "Back Window" "window" "closed" None [])
          = QuickToggle sensor /\ id sensor = sensorId) /\
     In s (sensors demo_state) /\ id s = sensorId).
Proof.
  apply (alarm_stops_only_by Production (render demo_state) "t"
           (QuickToggle (mkSensor 2 "Back Window" "window" "closed" None []))
           demo_state); reflexivity.
Defined.

(** ** Triggering twice *)

Lemma simulateSensorEvent_length build r now sensorId forcedState st :
  length (sensors (simulateSensorEvent build r now sensorId forcedState st))
  = length (sensors st).
Proof.
  rewrite simulateSensorEvent_runs. cbv zeta. cbn [sensors].
  apply mapM_length.
Qed.

Lemma simulateSensorEvent_armed build r now sensorId forcedState st :
  armed (simulateSensorEvent build r now sensorId forcedState st) = armed st.
Proof. now rewrite simulateSensorEvent_runs. Qed.

Lemma simulateSensorEvent_sensors build r now sensorId forcedState st :
  sensors (simulateSensorEvent build r now sensorId forcedState st) =
  map (fun s => fst (sensorEvent r now sensorId forcedState s (cells st)))
      (sensors st).
Proof.
  apply nth_error_ext. intros i. rewrite nth_error_map.
  destruct (nth_error (sensors st) i) as [s |] eqn:E.
  - now apply simulateSensorEvent_nth_error.
  - apply nth_error_None. rewrite simulateSensorEvent_length.
    now apply nth_error_None.
Qed.

Lemma toggle_toggle now s :
  In (state s) (validStates (type s)) ->
  toggle (transitioned now (toggle s) s) = state s.
Proof.
  unfold validStates, toggle, transitioned. cbn [type state].
  destruct ((type s =? "door") || (type s =? "window")).
  - intros [<- | [<- | []]]; reflexivity.
  - destruct (type s =? "motion").
    + intros [<- | [<- | []]]; reflexivity.
    + destruct (type s =? "camera").
      * intros [<- | [<- | []]]; reflexivity.
      * destruct (type s =? "smoke").
        -- intros [<- | [<- | []]]; reflexivity.
        -- intros [].
Qed.

(** X6.  While the system is disarmed and silent, two clicks on a
    sensor's Trigger button bring every sensor back to the state it had,
    provided the triggered sensor was in a state of its type's domain;
    the alarm stays off. *)
Theorem trigger_twice_restores build st now1 now2 sensor :
  armed st = false -> alarmOn st = false ->
  (forall s, In s (sensors st) -> id s = id sensor ->
             In (state s) (validStates (type s))) ->
  let st1 := quickToggle build (render st) now1 sensor st in
  let st2 := quickToggle build (render st1) now2 sensor st1 in
  map state (sensors st2) = map state (sensors st) /\
  alarmOn st2 = false /\ armed st2 = false.
Proof.
  intros Ha Hoff Hv. cbv zeta. unfold quickToggle.
  set (st1 := simulateSensorEvent build (render st) now1 (id sensor) None st).
  assert (Hoff1 : alarmOn st1 = false).
  { unfold st1. rewrite simulateSensorEvent_alarm. simpl.
    now rewrite Hoff, Ha. }
  assert (Ha1 : armed st1 = false).
  { unfold st1. now rewrite simulateSensorEvent_armed. }
  split; [| split].
  - assert (Hs1 : sensors st1 =
                   map (fun s => fst (sensorEvent (render st) now1 (id sensor)
                                        None s (cells st))) (sensors st))
      by apply simulateSensorEvent_sensors.
    rewrite simulateSensorEvent_sensors, Hs1, !map_map.
    apply map_ext_in. intros s Hs.
    destruct (Z.eq_dec (id s) (id sensor)) as [E | N].
    + rewrite <- E.
      rewrite (sensorEvent_transition (render st)) by exact Hoff.
      cbv zeta. cbn [fst].
      change (id s) with (id (transitioned now1 (nextState None s) s)) at 1.
      rewrite (sensorEvent_transition (render st1)) by exact Hoff1.
      cbv zeta. cbn [fst transitioned state nextState].
      apply toggle_toggle. now apply Hv.
    + rewrite (sensorEvent_other (render st)) by exact N. cbn [fst].
      now rewrite sensorEvent_other.
  - rewrite simulateSensorEvent_alarm. simpl. now rewrite Hoff1, Ha1.
  - now rewrite simulateSensorEvent_armed.
Qed.

Lemma trigger_twice_restores_witness :
  map state
    (sensors
       (quickToggle Production
          (render (quickToggle Production (render start_state) "t1"
                     (mkSensor 3 "Living Room Motion" "motion" "idle" None [])
                     start_state))
          "t2" (mkSensor 3 "Living Room Motion" "motion" "idle" None [])
          (quickToggle Production (render start_state) "t1"
             (mkSensor 3 "Living Room Motion" "motion" "idle" None [])
             start_state)))
  = ["closed"; "closed"; "idle"; "ok"; "ok"].
Proof.
  apply (trigger_twice_restores Production start_state "t1" "t2"
           (mkSensor 3 "Living Room Motion" "motion" "idle" None [])).
  - reflexivity.
  - reflexivity.
  - simpl. intros s H E.
    repeat (destruct H as [<- | H]; [try discriminate E; simpl; tauto |]).
    destruct H.
Defined.

(** ** The modal and the acknowledgement *)

(** X7.  An acknowledgement made from the modal of a sensor, by the
    handler of the render that shows it, logs that sensor's name and
    resets the sensors with its id; the selection keeps the record the
    card had when it was clicked, and the modal stays open. *)
Theorem modal_acknowledge build st now sensor :
  let st1 := openSensorModal sensor st in
  let st2 := performSensorAck build (render st1) now (id sensor) st1 in
  logs st2 =
    firstn 200 (mkLog ("Acknowledged " ++ name sensor) now :: logs st) /\
  sensors st2 = map (ackSensor (id sensor)) (sensors st) /\
  alarmOn st2 = false /\ armed st2 = armed st /\
  selectedSensor st2 = Some sensor /\ showModal st2 = true.
Proof.
  cbv zeta. rewrite (performSensorAck_build build). split.
  - unfold performSensorAck, openSensorModal, run, setSensors, pushLog,
      setLogs, pushLog_upd, ret. simpl. now destruct (truthy now).
  - repeat split.
Qed.

(** ** The sensor cards *)

Lemma toggle_badged s : In (toggle s) badgedStates.
Proof.
  unfold toggle, badgedStates.
  repeat match goal with
         | |- context [if ?b then _ else _] => destruct b
         end; simpl; tauto.
Qed.

Lemma badgeText_empty s : badgeText s = "" <-> ~ In (state s) badgedStates.
Proof.
  unfold badgeText, badgedStates, shown. split.
  - intros H Hin. simpl in Hin.
    repeat (destruct Hin as [E | Hin];
            [rewrite <- E in H; discriminate H |]).
    destruct Hin.
  - intros H. simpl in H.
    repeat match goal with
           | |- context [state s =? ?x] =>
               destruct (String.eqb_spec (state s) x);
               [exfalso; apply H; intuition congruence |]
           end.
    reflexivity.
Qed.

(** X8.  A card is marked occupied exactly when its sensor's state is one
    that the arming check takes for abnormal; the badge has a text
    exactly for the seven states open, closed, idle, motion, alarm, ok,
    alert; and since an event without a forced state always leads to one
    of the seven, whatever the sensor's type and state, the card of a
    sensor just triggered that way has a badge text. *)
Theorem cards_follow_states s now :
  alerting s = abnormal (state s) /\
  (cardClass s = "parking-spot occupied" <-> abnormal (state s) = true) /\
  (badgeText s = "" <-> ~ In (state s) badgedStates) /\
  badgeText (transitioned now (toggle s) s) <> "".
Proof.
  assert (E : alerting s = abnormal (state s)).
  { unfold alerting, abnormal. simpl. now rewrite orb_false_r, !orb_assoc. }
  split; [exact E |]. split; [| split].
  - unfold cardClass. rewrite E.
    destruct (abnormal (state s)); simpl; split; congruence.
  - apply badgeText_empty.
  - intros H. apply badgeText_empty in H. apply H. apply toggle_badged.
Qed.

Lemma cards_follow_states_witness :
  cardClass (mkSensor 5 "Kitchen Smoke" "smoke" "banana" None [])
    = "parking-spot available" /\
  badgeText (mkSensor 5 "Kitchen Smoke" "smoke" "banana" None []) = "".
Proof.
  split; [reflexivity |].
  apply (cards_follow_states
           (mkSensor 5 "Kitchen Smoke" "smoke" "banana" None []) "t").
  simpl. intuition discriminate.
Defined.

(** * The page *)

(** ** The interval and the registry *)

Lemma simulationEffect_ok st : interval_ok (mkPage st (simulationEffect st)).
Proof.
  unfold interval_ok, simulationEffect. simpl.
  destruct (simulate st) eqn:E; simpl; auto.
Qed.

Lemma handle_keeps_interval_deps build r now cmd st :
  restartsInterval cmd = false ->
  simulate (handle build r now cmd st) = simulate st /\
  sensors (handle build r now cmd st) = sensors st.
Proof.
  destruct cmd; simpl; try discriminate; intros _; try (now split).
  unfold armButton. now destruct (r_armed r).
Qed.

Lemma click_ok build now cmd p :
  interval_ok p -> interval_ok (click build now cmd p).
Proof.
  intros H. unfold click.
  destruct (restartsInterval cmd) eqn:E; [apply simulationEffect_ok |].
  destruct (handle_keeps_interval_deps build (render (page_state p)) now cmd
              (page_state p) E) as [Hs Hl].
  unfold interval_ok in *. simpl.
  destruct (page_interval p) as [i |];
    [destruct H as [H1 H2]; split; congruence | congruence].
Qed.

Lemma tick_ok build hit idx now p p' :
  interval_ok p -> tick build hit idx now p = Returns p' -> interval_ok p'.
Proof.
  intros H. unfold tick.
  destruct (page_interval p) as [i |] eqn:E.
  - destruct hit.
    + destruct (nth_error (i_sensors i) idx); [| discriminate].
      intros [= <-]. apply simulationEffect_ok.
    + now intros [= <-].
  - now intros [= <-].
Qed.

Lemma reaches_ok build p p' :
  reaches build p p' -> interval_ok p -> interval_ok p'.
Proof.
  induction 1 as [| p now cmd p' _ _ IH | p hit idx now p1 p' Ht _ IH];
    intros H.
  - exact H.
  - apply IH. now apply click_ok.
  - apply IH. now apply (tick_ok build hit idx now p).
Qed.

(** X9.  Whatever was clicked and whatever ticks came since the first
    render, there is an interval exactly while the simulation is on, and
    it holds the sensors now on the page: a tick draws among the current
    sensors.  A tick throws exactly when it fires with the simulation on
    and no sensor at the drawn index, which, the index being below the
    number of sensors when there is one, is when the registry is
    empty. *)
Theorem interval_follows_page build st p :
  reaches build (firstPage st) p ->
  (simulate (page_state p) = false -> page_interval p = None) /\
  (simulate (page_state p) = true ->
   exists r, page_interval p = Some (mkInterval r (sensors (page_state p)))) /\
  (forall hit idx now,
     tick build hit idx now p = Throws <->
     simulate (page_state p) = true /\ hit = true /\
     length (sensors (page_state p)) <= idx).
Proof.
  intros H.
  pose proof (reaches_ok build _ _ H (simulationEffect_ok st)) as Hok.
  unfold interval_ok in Hok.
  destruct (page_interval p) as [[r l] |] eqn:E; simpl in Hok.
  - destruct Hok as [Hs Hl]. subst l. split; [congruence |]. split.
    + intros _. now exists r.
    + intros hit idx now. unfold tick. rewrite E. simpl.
      destruct hit.
      * destruct (nth_error (sensors (page_state p)) idx) eqn:En.
        -- split; [discriminate |]. intros (_ & _ & Hle).
           apply nth_error_None in Hle. congruence.
        -- split; [| reflexivity]. intros _.
           repeat split; [exact Hs |]. now apply nth_error_None.
      * split; [discriminate | intros (_ & [=] & _)].
  - split; [reflexivity |]. split; [congruence |].
    intros hit idx now. unfold tick. rewrite E.
    split; [discriminate | intros (Hs & _); congruence].
Qed.

Lemma interval_follows_page_witness :
  let p := click Production "t2" SimulationButton
             (click Production "t1" (QuickToggle
                            (mkSensor 1 "Front Door" "door" "closed" None []))
                (firstPage start_state)) in
  page_interval p = None /\
  forall hit idx now, tick Production hit idx now p <> Throws.
Proof.
  destruct (interval_follows_page Production start_state
              (click Production "t2" SimulationButton
                 (click Production "t1" (QuickToggle
                                (mkSensor 1 "Front Door" "door" "closed"
                                   None []))
                    (firstPage start_state)))) as (H1 & _ & H3).
  - apply (reaches_click _ _ "t1"
             (QuickToggle (mkSensor 1 "Front Door" "door" "closed" None [])));
      [left; reflexivity |].
    apply (reaches_click _ _ "t2" SimulationButton); [exact I |].
    apply reaches_here.
  - cbv zeta. split; [now apply H1 |].
    intros hit idx now Ht. apply H3 in Ht. destruct Ht as (Hs & _).
    discriminate Hs.
Defined.

(** ** The interval's handler after the arm button *)


Lemma some_sensor_abnormal st s forcedState :
  In s (sensors st) -> abnormal (nextState forcedState s) = true ->
  existsb (fun x => (id x =? id s)%Z && abnormal (nextState forcedState x))
    (sensors st) = true.
Proof.
  intros Hs Hab. apply existsb_exists. exists s.
  split; [exact Hs |]. now rewrite Z.eqb_refl, Hab.
Qed.






(** ** State, last event and history agree *)

Lemma Forall_firstn {A} (P : A -> Prop) n l :
  Forall P l -> Forall P (firstn n l).
Proof.
  intros H. revert n. induction H as [| x l Hx _ IH]; intros n.
  - rewrite firstn_nil. constructor.
  - destruct n as [| n]; [constructor |].
    rewrite firstn_cons. constructor; [exact Hx | apply IH].
Qed.

Lemma sensorEvent_recorded r now sensorId forcedState s c :
  recorded s -> recorded (fst (sensorEvent r now sensorId forcedState s c)).
Proof.
  intros [Hh Hn]. destruct (Z.eq_dec (id s) sensorId) as [<- | N].
  - destruct (r_alarmOn r) eqn:Hon.
    + rewrite sensorEvent_silence by exact Hon. now split.
    + rewrite sensorEvent_transition by exact Hon. cbv zeta. cbn [fst].
      unfold recorded, transitioned. cbn [history state lastEvent name].
      rewrite firstn_cons. split; [now split |].
      constructor; [reflexivity |].
      now apply Forall_firstn.
  - rewrite sensorEvent_other by exact N. now split.
Qed.

Lemma simulateSensorEvent_recorded build r now sensorId forcedState st :
  Forall recorded (sensors st) ->
  Forall recorded
    (sensors (simulateSensorEvent build r now sensorId forcedState st)).
Proof.
  intros H. rewrite simulateSensorEvent_sensors. apply Forall_map.
  revert H. apply Forall_impl. intros s. apply sensorEvent_recorded.
Qed.

(** X12.  On the page, where sensors change by triggers and ticks only,
    every sensor that has a history stays in the state its newest event
    names, with that event's time as its last event, and every event's
    note stays "<name> → <state>" for the state it records. *)
Theorem history_matches_state build p p' :
  Forall recorded (sensors (page_state p)) -> reaches build p p' ->
  Forall recorded (sensors (page_state p')).
Proof.
  intros H Hr.
  induction Hr as [| p now cmd p' Hon _ IH | p hit idx now p1 p' Ht _ IH].
  - exact H.
  - apply IH. unfold click. cbn [page_state].
    destruct cmd; simpl in Hon; try contradiction; cbn [handle];
      try exact H.
    + unfold armButton. now destruct (r_armed (render (page_state p))).
    + now apply simulateSensorEvent_recorded.
  - apply IH. unfold tick in Ht.
    destruct (page_interval p) as [i |]; [| now injection Ht as <-].
    destruct hit; [| now injection Ht as <-].
    destruct (nth_error (i_sensors i) idx); [| discriminate].
    injection Ht as <-. now apply simulateSensorEvent_recorded.
Qed.

Lemma history_matches_state_witness :
  Forall recorded
    (sensors (page_state
       (click Production "t2" (QuickToggle
                      (mkSensor 4 "Garage Camera" "camera" "ok" None []))
          (click Production "t1" ArmButton (firstPage start_state))))).
Proof.
  apply (history_matches_state Production (firstPage start_state)).
  - repeat constructor.
  - apply (reaches_click _ _ "t1" ArmButton); [exact I |].
    apply (reaches_click _ _ "t2"
             (QuickToggle (mkSensor 4 "Garage Camera" "camera" "ok" None [])));
      [simpl; tauto |].
    apply reaches_here.
Defined.

(** ** A tick while the alarm rings *)

(** X13.  When a click on a Trigger button has rung the alarm, the
    interval is set up anew with a handler that sees the alarm on: the
    next tick that fires stops the alarm, changes no sensor, and logs
    "Alarm stopped manually via <name>" (behind its bell-off sign) for
    the sensor it drew: once when the updater is run once, twice in a
    development build under [React.StrictMode]. *)
Theorem tick_silences_ringing_alarm build st now1 now2 sensor idx s :
  NoDup (map id (sensors st)) ->
  simulate st = true -> armed st = true -> alarmOn st = false ->
  In sensor (sensors st) -> abnormal (toggle sensor) = true ->
  let p1 := click build now1 (QuickToggle sensor) (firstPage st) in
  let entry := mkLog ("🔕 Alarm stopped manually via " ++ name s) now2 in
  nth_error (sensors (page_state p1)) idx = Some s ->
  alarmOn (page_state p1) = true /\
  exists p2,
    tick build true idx now2 p1 = Returns p2 /\
    alarmOn (page_state p2) = false /\
    sensors (page_state p2) = sensors (page_state p1) /\
    logs (page_state p2) =
      firstn 200
        (match build with
         | Production => [entry]
         | StrictDevelopment => [entry; entry]
         end ++ logs (page_state p1))%list.
Proof.
  intros Hnd Hsim Ha Hoff Hin Hab. cbv zeta.
  set (st1 := simulateSensorEvent build (render st) now1 (id sensor) None st).
  assert (E1 : click build now1 (QuickToggle sensor) (firstPage st) =
               mkPage st1 (simulationEffect st1)) by reflexivity.
  rewrite E1. cbn [page_state]. intros Hi.
  assert (Hon1 : alarmOn st1 = true).
  { unfold st1. rewrite simulateSensorEvent_alarm.
    cbn [render r_alarmOn r_armed]. rewrite Hoff, Ha.
    rewrite (some_sensor_abnormal st sensor None Hin Hab).
    reflexivity. }
  assert (Hsim1 : simulate st1 = true).
  { unfold st1. now rewrite simulateSensorEvent_runs. }
  assert (Hnd1 : NoDup (map id (sensors st1))).
  { assert (Eid : forall l, map id l = map (fun t => fst (fst t))
                                         (map nameplate l)).
    { intros l. rewrite map_map. reflexivity. }
    unfold st1. rewrite Eid, simulateSensorEvent_nameplate, <- Eid.
    exact Hnd. }
  split; [exact Hon1 |].
  unfold tick, simulationEffect. rewrite Hsim1.
  cbn [page_interval i_sensors i_render page_state]. rewrite Hi.
  eexists. split; [reflexivity |]. cbn [page_state].
  destruct (simulateSensorEvent_unique build (render st1) now2 (id s) None st1 s
              Hnd1 (nth_error_In _ _ Hi) eq_refl) as (l1 & l2 & El & _ & E).
  rewrite E. cbv zeta.
  assert (Hr : r_alarmOn (render st1) = true) by exact Hon1.
  destruct build; rewrite !sensorEvent_silence by exact Hr;
    cbn [fst snd c_alarmOn c_logs cells alarmOn sensors logs];
    (split; [reflexivity |]); (split; [now rewrite El |]).
  - reflexivity.
  - apply firstn_cons_firstn.
Qed.

Lemma tick_silences_ringing_alarm_witness :
  exists p2,
    tick Production true 2 "t2"
      (click Production "t1" (QuickToggle
                     (mkSensor 1 "Front Door" "door" "closed" None []))
         (firstPage armed_state)) = Returns p2 /\
    alarmOn (page_state p2) = false /\
    hd_error (logs (page_state p2)) =
      Some (mkLog "🔕 Alarm stopped manually via Living Room Motion" "t2").
Proof.
  destruct (tick_silences_ringing_alarm Production armed_state "t1" "t2"
              (mkSensor 1 "Front Door" "door" "closed" None []) 2
              (mkSensor 3 "Living Room Motion" "motion" "idle" None []))
    as (_ & p2 & H1 & H2 & _ & H4).
  - repeat constructor; simpl; intuition discriminate.
  - reflexivity.
  - reflexivity.
  - reflexivity.
  - simpl. tauto.
  - reflexivity.
  - reflexivity.
  - exists p2. split; [exact H1 |]. split; [exact H2 |].
    rewrite H4. reflexivity.
Defined.
